(** * The training orchestration of cvproj/scripts/train.py

    A shallow embedding of [main] from [src/cvproj/scripts/train.py]: the
    set-up phase (models, optimizers, dataset dispatch, data loaders), the
    training loop with its four sub-steps per micro-batch, and the periodic
    reporting block (image log, checkpoint, validation pass).

    Every call into a library (torch, accelerate, lpips, clip, wandb,
    cleanfid) is recorded as an [event] of a trace and is assumed to return
    normally; the exceptions that [main] itself can raise (the [ValueError]
    of the dataset dispatch, the unbound local [dataset_val], the assertion
    of the validation pass, a modulo by a zero frequency) are modelled. *)

From Stdlib Require Import ZArith QArith List String Ascii Bool Lia.
From Stdlib Require Import DecimalString DecimalZ DecimalPos.
Import ListNotations.

Local Open Scope string_scope.
Local Open Scope list_scope.
Local Open Scope Z_scope.

(** ** Configuration and collaborators *)

(** The fields of [TrainConfig] (cvproj/data/configs.py, not part of the
    sources at hand) that [main] branches on or builds paths and messages
    from.  Fields that are only handed on to a library constructor
    (learning rate, LoRA ranks, scheduler name, ...) do not influence the
    control flow and are left out.  Python ints are [Z], loss weights are
    rationals. *)
Record TrainConfig : Type := {
  device : string;
  seed : option Z;
  output_dir : string;
  dataset_type : string;
  dataset_folder : string;
  train_batch_size : Z;
  eval_batch_size : Z;
  epoch_num : Z;
  l_rec : Q;
  l_lpips : Q;
  l_clipsim : Q;
  l_gan : Q;
  image_log_freq : Z;
  model_log_freq : Z;
  eval_freq : Z;
  num_samples_to_eval : Z;
  track_fid_metrci_val : bool
}.

(** A batch as the loop sees it: the leading dimension [B] of
    [batch["conditioning_pixel_values"].shape] and the captions. *)
Record Batch : Type := {
  shape_B : Z;
  caption : list string
}.

(** What the collaborators decide: the process role, the flag
    [accelerator.sync_gradients] that [accelerator.accumulate] sets on
    entry (a function of the configured group size and of the number of
    earlier entries), the length of the training dataset, the batches that
    the training loader yields in each epoch and those that the validation
    loader (built with [shuffle=False]) yields in each pass. *)
Record World : Type := {
  is_main_process : bool;
  sync_gradients : Z -> nat -> bool;
  len_dataset_train : Z;
  dl_train : nat -> list Batch;
  dl_val : list Batch
}.

(** The group size that line 31 hands to the [Accelerator] constructor. *)
Definition gradient_accumulation_steps : Z := 20.

(** The policy of accelerate for a prepared loader that yields [n] batches
    in every epoch: on entry of [accumulate] the flag is set on the last
    batch of the loader, which also resets the accelerator's count of
    steps, and otherwise when that count, the position of the batch in the
    epoch counted from 1, is a multiple of the group size. *)
Definition accelerate_sync (n : nat) (gas : Z) (k : nat) : bool :=
  let j := (k mod n)%nat in
  (S j =? n)%nat || (Z.of_nat (S j) mod gas =? 0).

(** ** Symbolic losses *)

(** The scalar tensors of one micro-step.  The outputs of the networks are
    atoms; the arithmetic that [main] performs on them is kept symbolic and
    can be evaluated over the rationals with [eval]. *)
Inductive scalar : Type :=
| mse_loss
| lpips_mean
| clipsim_mean
| disc_for_G
| disc_for_real
| disc_for_fake
| lit (q : Q)
| add (a b : scalar)
| sub (a b : scalar)
| mul (a b : scalar)
| div (a b : scalar).

Record outputs : Type := {
  o_mse : Q;
  o_lpips : Q;
  o_clipsim : Q;
  o_for_G : Q;
  o_for_real : Q;
  o_for_fake : Q
}.

Fixpoint eval (o : outputs) (s : scalar) : Q :=
  match s with
  | mse_loss => o_mse o
  | lpips_mean => o_lpips o
  | clipsim_mean => o_clipsim o
  | disc_for_G => o_for_G o
  | disc_for_real => o_for_real o
  | disc_for_fake => o_for_fake o
  | lit q => q
  | add a b => (eval o a + eval o b)%Q
  | sub a b => (eval o a - eval o b)%Q
  | mul a b => (eval o a * eval o b)%Q
  | div a b => (eval o a / eval o b)%Q
  end.

(** [mentions x s]: the atom [x] occurs in [s]. *)
Fixpoint mentions (x s : scalar) : bool :=
  match s with
  | add a b | sub a b | mul a b | div a b => mentions x a || mentions x b
  | lit _ => false
  | mse_loss => match x with mse_loss => true | _ => false end
  | lpips_mean => match x with lpips_mean => true | _ => false end
  | clipsim_mean => match x with clipsim_mean => true | _ => false end
  | disc_for_G => match x with disc_for_G => true | _ => false end
  | disc_for_real => match x with disc_for_real => true | _ => false end
  | disc_for_fake => match x with disc_for_fake => true | _ => false end
  end.

(** The Python test [q > 0] on a weight. *)
Definition Qpositive (q : Q) : bool := negb (Qle_bool q 0).

(** ** Events, exceptions and the monad of [main] *)

Inductive network : Type := Pix2Pix_Turbo | Discriminator | LPIPS | CLIP.
Inductive dataset_class : Type :=
  SketchyDataset | PokemonDataset | PixelDataset | PairedDataset.
Inductive role : Type := Train | Val.
Inductive side : Type := Gen | Disc.
Inductive phase : Type := Training | Validation.

(** A constructed dataset: its class and the keyword arguments that select
    the data ([tokenizer] is the same in every call). *)
Record dataset : Type := {
  ds_class : dataset_class;
  ds_split : string;
  ds_folder : option string
}.

(** The values stored in the [logs] dict. *)
Inductive logval : Type :=
| LScalar (s : scalar)
| LImages (n : Z)
| LMean (n : nat)
| LFid.

Inductive event : Type :=
| NewAccelerator (gas : Z)
| SetSeed (s : Z)
| Makedirs (path : string)
| Construct (n : network)
| NewOptimizer (s : side)
| NewScheduler (s : side)
| NewDataset (r : role) (d : dataset)
| NewDataLoader (r : role) (batch_size : Z) (shuffle : bool)
| Prepare
| InitTrackers
| FolderFeatures (path : string)
| Tqdm (total : Z)
| Forward (p : phase)
| MseLoss (p : phase)
| Lpips (p : phase)
| Tokenize (p : phase)
| ClipSimilarity (p : phase)
| Backward (loss : scalar)
| ClipGradNorm (s : side)
| OptimizerStep (s : side)
| SchedulerStep (s : side)
| ZeroGrad (s : side)
| ProgressUpdate
| SaveModel (path : string)
| SaveImage (path : string)
| FidFromFeats
| GcCollect
| EmptyCache
| TrackerLog (logs : list (string * logval)) (step : Z).

Inductive exn : Type :=
| ValueError (msg : string)
| UnboundLocalError (var : string)
| AssertionError (msg : string)
| ZeroDivisionError.

Inductive outcome (A : Type) : Type :=
| Returned (a : A)
| Raised (e : exn).
Arguments Returned {A} a.
Arguments Raised {A} e.

(** The mutable state that the claims are about: the local [global_step]
    of [main] and the number of times [accelerator.accumulate] has been
    entered. *)
Record state : Type := {
  global_step : Z;
  accumulate_calls : nat
}.

Record run (A : Type) : Type := {
  trace : list event;
  final : state;
  result : outcome A
}.
Arguments trace {A} r.
Arguments final {A} r.
Arguments result {A} r.

Definition M (A : Type) : Type := state -> run A.

Definition ret {A} (a : A) : M A :=
  fun s => {| trace := []; final := s; result := Returned a |}.

Definition bind {A B} (m : M A) (f : A -> M B) : M B :=
  fun s =>
    let r := m s in
    match result r with
    | Returned a =>
        let r' := f a (final r) in
        {| trace := trace r ++ trace r'; final := final r'; result := result r' |}
    | Raised e => {| trace := trace r; final := final r; result := Raised e |}
    end.

Definition emit (e : event) : M unit :=
  fun s => {| trace := [e]; final := s; result := Returned tt |}.

Definition raise {A} (e : exn) : M A :=
  fun s => {| trace := []; final := s; result := Raised e |}.

Definition get : M state :=
  fun s => {| trace := []; final := s; result := Returned s |}.

Definition put (s' : state) : M unit :=
  fun _ => {| trace := []; final := s'; result := Returned tt |}.

Definition when (b : bool) (m : M unit) : M unit := if b then m else ret tt.

Declare Scope train_scope.
Delimit Scope train_scope with train.
Notation "x <- c1 ;; c2" := (bind c1 (fun x => c2))
  (at level 100, c1 at next level, right associativity) : train_scope.
Notation "c1 ;; c2" := (bind c1 (fun _ => c2))
  (at level 100, right associativity) : train_scope.
Local Open Scope train_scope.

(** ** Library functions that build the strings of [main] *)

(** [str(n)] / [f"{n}"] for a Python int. *)
Definition str (n : Z) : string := NilZero.string_of_int (Z.to_int n).

Fixpoint last_char (s : string) : option ascii :=
  match s with
  | EmptyString => None
  | String c EmptyString => Some c
  | String _ rest => last_char rest
  end.

Definition ends_with_sep (s : string) : bool :=
  match last_char s with
  | Some c => Ascii.eqb c "/"%char
  | None => false
  end.

(** One round of the loop of [posixpath.join]. *)
Definition join2 (path b : string) : string :=
  if prefix "/" b then b
  else if String.eqb path "" || ends_with_sep path then (path ++ b)%string
  else (path ++ "/" ++ b)%string.

Definition os_path_join (a : string) (p : list string) : string :=
  fold_left join2 p a.

(** Python's [a % b] on ints: floored, and an error for [b = 0]. *)
Definition py_mod (a b : Z) : M Z :=
  if b =? 0 then raise ZeroDivisionError else ret (a mod b).

(** Python's [a // b] on ints. *)
Definition py_floordiv (a b : Z) : M Z :=
  if b =? 0 then raise ZeroDivisionError else ret (a / b).

(** ** Set-up: lines 29-259 *)

(** Lines 29-116: accelerator, seed, output directories, the four networks,
    the two optimizers and their schedules. *)
Definition construct_models (w : World) (cfg : TrainConfig) : M unit :=
  emit (NewAccelerator gradient_accumulation_steps) ;;
  match seed cfg with
  | Some s => emit (SetSeed s)
  | None => ret tt
  end ;;
  when (is_main_process w)
    (emit (Makedirs (os_path_join (output_dir cfg) ["checkpoints"])) ;;
     emit (Makedirs (os_path_join (output_dir cfg) ["eval"]))) ;;
  emit (Construct Pix2Pix_Turbo) ;;
  emit (Construct Discriminator) ;;
  emit (Construct LPIPS) ;;
  emit (Construct CLIP) ;;
  emit (NewOptimizer Gen) ;;
  emit (NewScheduler Gen) ;;
  emit (NewOptimizer Disc) ;;
  emit (NewScheduler Disc).

(** Lines 118-160: the dispatch on [cfg.dataset_type].  The result is the
    pair of locals [dataset_train] and [dataset_val]; the second is [None]
    when the branch taken leaves it unassigned. *)
Definition dataset_dispatch (cfg : TrainConfig) : M (dataset * option dataset) :=
  if String.eqb (dataset_type cfg) "sketchy" then
    let dataset_train :=
      {| ds_class := SketchyDataset; ds_split := "train";
         ds_folder := Some (dataset_folder cfg) |} in
    emit (NewDataset Train dataset_train) ;;
    let dataset_val :=
      {| ds_class := SketchyDataset; ds_split := "val";
         ds_folder := Some (dataset_folder cfg) |} in
    emit (NewDataset Val dataset_val) ;;
    ret (dataset_train, Some dataset_val)
  else if String.eqb (dataset_type cfg) "pokemon" then
    let dataset_train :=
      {| ds_class := PokemonDataset; ds_split := "train"; ds_folder := None |} in
    emit (NewDataset Train dataset_train) ;;
    let dataset_val :=
      {| ds_class := PokemonDataset; ds_split := "train"; ds_folder := None |} in
    emit (NewDataset Val dataset_val) ;;
    ret (dataset_train, Some dataset_val)
  else if String.eqb (dataset_type cfg) "pixel" then
    let dataset_train :=
      {| ds_class := PixelDataset; ds_split := "train"; ds_folder := None |} in
    emit (NewDataset Train dataset_train) ;;
    let dataset_val :=
      {| ds_class := PixelDataset; ds_split := "train"; ds_folder := None |} in
    emit (NewDataset Val dataset_val) ;;
    ret (dataset_train, Some dataset_val)
  else if String.eqb (dataset_type cfg) "paired" then
    let dataset_train :=
      {| ds_class := PairedDataset; ds_split := "train";
         ds_folder := Some (dataset_folder cfg) |} in
    emit (NewDataset Train dataset_train) ;;
    ret (dataset_train, None)
  else
    raise (ValueError ("Unknown dataset type '" ++ dataset_type cfg ++ "'")%string).

(** Lines 162-171: reading the local [dataset_val] fails when no branch
    assigned it.  The constructor of the loader is a library call and is
    taken to return; torch itself rejects a batch size that is not
    positive, so statements about runs that get past these lines are made
    for positive batch sizes. *)
Definition make_loaders (cfg : TrainConfig)
    (dataset_train : dataset) (dataset_val : option dataset) : M unit :=
  emit (NewDataLoader Train (train_batch_size cfg) true) ;;
  match dataset_val with
  | Some _ => emit (NewDataLoader Val (eval_batch_size cfg) false)
  | None => raise (UnboundLocalError "dataset_val")
  end.

(** Lines 173-258: [accelerator.prepare], trackers, progress bar and the
    reference statistics for FID.  The floor division of line 217 is
    written as Python evaluates it; with a loader that rejects the batch
    size 0 its error case is not reached in a run. *)
Definition prepare_run (w : World) (cfg : TrainConfig) : M unit :=
  emit Prepare ;;
  when (is_main_process w) (emit InitTrackers) ;;
  max_train_steps <-
    py_floordiv (epoch_num cfg * len_dataset_train w) (train_batch_size cfg) ;;
  emit (Tqdm max_train_steps) ;;
  when (is_main_process w && track_fid_metrci_val cfg)
    (emit (FolderFeatures (os_path_join (dataset_folder cfg) ["val"]))).

Definition setup (w : World) (cfg : TrainConfig) : M unit :=
  construct_models w cfg ;;
  ds <- dataset_dispatch cfg ;;
  make_loaders cfg (fst ds) (snd ds) ;;
  prepare_run w cfg.

(** ** The training loop: lines 260-504 *)

(** Entering [with accelerator.accumulate(...)] (line 265) fixes the flag
    [accelerator.sync_gradients] for the whole micro-step. *)
Definition accumulate (w : World) : M bool :=
  s <- get ;;
  put {| global_step := global_step s;
         accumulate_calls := S (accumulate_calls s) |} ;;
  ret (sync_gradients w gradient_accumulation_steps (accumulate_calls s)).

(** Lines 270-309.  Returns the locals [loss_l2], [loss_lpips] and
    [loss_clipsim] (unassigned when the weight is not positive). *)
Definition reconstruction_step (cfg : TrainConfig) (sync : bool)
    : M (scalar * scalar * option scalar) :=
  emit (Forward Training) ;;
  emit (MseLoss Training) ;;
  let loss_l2 := mul mse_loss (lit (l_rec cfg)) in
  emit (Lpips Training) ;;
  let loss_lpips := mul lpips_mean (lit (l_lpips cfg)) in
  let loss := add loss_l2 loss_lpips in
  r <- (if Qpositive (l_clipsim cfg) then
          emit (Tokenize Training) ;;
          emit (ClipSimilarity Training) ;;
          let loss_clipsim := sub (lit 1%Q) (div clipsim_mean (lit 100%Q)) in
          let loss := mul loss_clipsim (lit (l_clipsim cfg)) in
          ret (loss, Some loss_clipsim)
        else ret (loss, None)) ;;
  emit (Backward (fst r)) ;;
  when sync (emit (ClipGradNorm Gen)) ;;
  emit (OptimizerStep Gen) ;;
  emit (SchedulerStep Gen) ;;
  emit (ZeroGrad Gen) ;;
  ret (loss_l2, loss_lpips, snd r).

(** Lines 314-326.  Returns [lossG]. *)
Definition generator_step (cfg : TrainConfig) (sync : bool) : M scalar :=
  emit (Forward Training) ;;
  let lossG := mul disc_for_G (lit (l_gan cfg)) in
  emit (Backward lossG) ;;
  when sync (emit (ClipGradNorm Gen)) ;;
  emit (OptimizerStep Gen) ;;
  emit (SchedulerStep Gen) ;;
  emit (ZeroGrad Gen) ;;
  ret lossG.

(** Lines 331-344.  Returns [lossD_real]; its [.mean()] is the scalar
    itself. *)
Definition disc_real_step (cfg : TrainConfig) (sync : bool) : M scalar :=
  let lossD_real := mul disc_for_real (lit (l_gan cfg)) in
  emit (Backward lossD_real) ;;
  when sync (emit (ClipGradNorm Disc)) ;;
  emit (OptimizerStep Disc) ;;
  emit (SchedulerStep Disc) ;;
  emit (ZeroGrad Disc) ;;
  ret lossD_real.

(** Lines 346-358.  Returns [lossD_fake]. *)
Definition disc_fake_step (cfg : TrainConfig) (sync : bool) : M scalar :=
  let lossD_fake := mul disc_for_fake (lit (l_gan cfg)) in
  emit (Backward lossD_fake) ;;
  when sync (emit (ClipGradNorm Disc)) ;;
  emit (OptimizerStep Disc) ;;
  emit (ZeroGrad Disc) ;;
  ret lossD_fake.

(** The locals that the reporting block reads. *)
Record locals : Type := {
  loss_l2 : scalar;
  loss_lpips : scalar;
  loss_clipsim : option scalar;
  lossG : scalar;
  lossD : scalar
}.

Definition logs_t : Type := list (string * logval).

(** The checkpoint file of line 407. *)
Definition checkpoint_path (cfg : TrainConfig) (gs : Z) : string :=
  os_path_join (output_dir cfg) ["checkpoints"; ("model_" ++ str gs ++ ".pkl")%string].

(** The directory of lines 416-419 and the image file of lines 473-478. *)
Definition fid_dir (cfg : TrainConfig) (gs : Z) : string :=
  os_path_join (output_dir cfg) ["eval"; ("fid_" ++ str gs)%string].

Definition val_image_path (cfg : TrainConfig) (gs : Z) (step : nat) : string :=
  os_path_join (output_dir cfg)
    ["eval"; ("fid_" ++ str gs)%string;
     ("val_" ++ str (Z.of_nat step) ++ ".png")%string].

(** Lines 422-479: the loop over [enumerate(dl_val)].  [step] is the index
    of the head of [batches], [n] the common length of the lists [l_l2],
    [l_lpips] and [l_clipsim]; the result is that length at the end. *)
Fixpoint validation_loop (cfg : TrainConfig) (gs : Z) (step : nat)
    (batches : list Batch) (n : nat) : M nat :=
  match batches with
  | [] => ret n
  | batch_val :: rest =>
      if Z.of_nat step >=? num_samples_to_eval cfg then ret n
      else if shape_B batch_val =? 1 then
        emit (Forward Validation) ;;
        emit (MseLoss Validation) ;;
        emit (Lpips Validation) ;;
        emit (Tokenize Validation) ;;
        emit (ClipSimilarity Validation) ;;
        when (track_fid_metrci_val cfg)
          (emit (SaveImage (val_image_path cfg gs step))) ;;
        validation_loop cfg gs (S step) rest (S n)
      else raise (AssertionError "Use batch size 1 for eval.")
  end.

(** Lines 414-503. *)
Definition validation_pass (w : World) (cfg : TrainConfig) (gs : Z)
    (logs : logs_t) : M logs_t :=
  when (track_fid_metrci_val cfg) (emit (Makedirs (fid_dir cfg gs))) ;;
  n <- validation_loop cfg gs 0 (dl_val w) 0 ;;
  logs <- (if track_fid_metrci_val cfg then
             emit (FolderFeatures (fid_dir cfg gs)) ;;
             emit FidFromFeats ;;
             ret (logs ++ [("val/clean_fid", LFid)])
           else ret logs) ;;
  let logs :=
    logs ++ [("val/l2", LMean n); ("val/lpips", LMean n);
             ("val/clipsim", LMean n)] in
  emit GcCollect ;;
  emit EmptyCache ;;
  ret logs.

(** Lines 366-504: what the main process does on a synchronized step;
    [gs] is [global_step] after its increment. *)
Definition report_main (w : World) (cfg : TrainConfig) (batch : Batch)
    (l : locals) (gs : Z) : M unit :=
  let logs :=
    [("lossG", LScalar (lossG l)); ("lossD", LScalar (lossD l));
     ("loss_l2", LScalar (loss_l2 l)); ("loss_lpips", LScalar (loss_lpips l))] in
  logs <- (if Qpositive (l_clipsim cfg) then
             match loss_clipsim l with
             | Some c => ret (logs ++ [("loss_clipsim", LScalar c)])
             | None => raise (UnboundLocalError "loss_clipsim")
             end
           else ret logs) ;;
  r <- py_mod gs (image_log_freq cfg) ;;
  let logs :=
    if r =? 1 then
      logs ++ [("train/source", LImages (shape_B batch));
               ("train/target", LImages (shape_B batch));
               ("train/model_output", LImages (shape_B batch))]
    else logs in
  r <- py_mod gs (model_log_freq cfg) ;;
  when (r =? 1) (emit (SaveModel (checkpoint_path cfg gs))) ;;
  r <- py_mod gs (eval_freq cfg) ;;
  logs <- (if r =? 1 then validation_pass w cfg gs logs else ret logs) ;;
  emit (TrackerLog logs gs).

(** Lines 362-504. *)
Definition report (w : World) (cfg : TrainConfig) (batch : Batch)
    (l : locals) : M unit :=
  emit ProgressUpdate ;;
  s <- get ;;
  put {| global_step := global_step s + 1;
         accumulate_calls := accumulate_calls s |} ;;
  when (is_main_process w) (report_main w cfg batch l (global_step s + 1)).

(** Lines 264-504: the body of the inner loop for one batch. *)
Definition micro_step (w : World) (cfg : TrainConfig) (batch : Batch) : M unit :=
  sync <- accumulate w ;;
  r <- reconstruction_step cfg sync ;;
  g <- generator_step cfg sync ;;
  lossD_real <- disc_real_step cfg sync ;;
  lossD_fake <- disc_fake_step cfg sync ;;
  let l := {| loss_l2 := fst (fst r); loss_lpips := snd (fst r);
              loss_clipsim := snd r; lossG := g;
              lossD := add lossD_real lossD_fake |} in
  when sync (report w cfg batch l).

(** Line 263: [for step, batch in enumerate(dl_train)]. *)
Fixpoint for_batches (w : World) (cfg : TrainConfig) (batches : list Batch)
    : M unit :=
  match batches with
  | [] => ret tt
  | batch :: rest => micro_step w cfg batch ;; for_batches w cfg rest
  end.

(** Line 262: [for epoch in range(0, cfg.epoch_num)]. *)
Fixpoint for_epochs (w : World) (cfg : TrainConfig) (epochs : list nat)
    : M unit :=
  match epochs with
  | [] => ret tt
  | epoch :: rest =>
      for_batches w cfg (dl_train w epoch) ;; for_epochs w cfg rest
  end.

(** Lines 261-504. *)
Definition training_loop (w : World) (cfg : TrainConfig) : M unit :=
  s <- get ;;
  put {| global_step := 0; accumulate_calls := accumulate_calls s |} ;;
  for_epochs w cfg (seq 0 (Z.to_nat (epoch_num cfg))).

Definition main (w : World) (cfg : TrainConfig) : M unit :=
  setup w cfg ;;
  training_loop w cfg.

(** The state in which [main] is entered. *)
Definition initial : state := {| global_step := 0; accumulate_calls := 0 |}.

(** ** Classifying events *)

(** The events of the four sub-steps of a training micro-step. *)
Definition training_event (e : event) : bool :=
  match e with
  | Forward Training | MseLoss Training | Lpips Training
  | Tokenize Training | ClipSimilarity Training
  | Backward _ | ClipGradNorm _ | OptimizerStep _ | SchedulerStep _
  | ZeroGrad _ => true
  | _ => false
  end.

(** The events that only the validation pass produces. *)
Definition validation_event (e : event) : bool :=
  match e with
  | Forward Validation | MseLoss Validation | Lpips Validation
  | Tokenize Validation | ClipSimilarity Validation
  | SaveImage _ | FidFromFeats | GcCollect | EmptyCache => true
  | _ => false
  end.

Definition is_backward (e : event) : bool :=
  match e with Backward _ => true | _ => false end.

Definition is_scheduler_step (s : side) (e : event) : bool :=
  match e, s with
  | SchedulerStep Gen, Gen | SchedulerStep Disc, Disc => true
  | _, _ => false
  end.

Definition is_optimizer_step (s : side) (e : event) : bool :=
  match e, s with
  | OptimizerStep Gen, Gen | OptimizerStep Disc, Disc => true
  | _, _ => false
  end.

Definition is_save_model (e : event) : bool :=
  match e with SaveModel _ => true | _ => false end.


Definition is_data_event (e : event) : bool :=
  match e with NewDataset _ _ | NewDataLoader _ _ _ => true | _ => false end.

Definition is_clip_text (p : phase) (e : event) : bool :=
  match e, p with
  | Tokenize Training, Training | ClipSimilarity Training, Training
  | Tokenize Validation, Validation | ClipSimilarity Validation, Validation => true
  | _, _ => false
  end.

Definition is_forward (p : phase) (e : event) : bool :=
  match e, p with
  | Forward Training, Training | Forward Validation, Validation => true
  | _, _ => false
  end.

Definition is_tokenize (p : phase) (e : event) : bool :=
  match e, p with
  | Tokenize Training, Training | Tokenize Validation, Validation => true
  | _, _ => false
  end.

Definition is_clip_similarity (p : phase) (e : event) : bool :=
  match e, p with
  | ClipSimilarity Training, Training
  | ClipSimilarity Validation, Validation => true
  | _, _ => false
  end.

Definition count (p : event -> bool) (t : list event) : nat :=
  List.length (filter p t).

(** [none p t]: no event of [t] satisfies [p]. *)
Definition none (p : event -> bool) (t : list event) : Prop :=
  Forall (fun e => p e = false) t.

(** The number of synchronized micro-steps among the [n] entries of
    [accelerator.accumulate] that follow the first [from] ones. *)
Fixpoint syncs (w : World) (from n : nat) : nat :=
  match n with
  | O => O
  | S n' =>
      (if sync_gradients w gradient_accumulation_steps from then 1 else 0)
      + syncs w (S from) n'
  end%nat.

(** ** Auxiliary definitions: normal forms, invariants and sample inputs *)

(** The four sub-steps neither read nor change the state and always
    return; their events and the locals they leave behind depend on the
    configuration and on the synchronization flag only. *)
Definition substep_trace (cfg : TrainConfig) (sync : bool) : list event :=
  trace (reconstruction_step cfg sync initial)
  ++ trace (generator_step cfg sync initial)
  ++ trace (disc_real_step cfg sync initial)
  ++ trace (disc_fake_step cfg sync initial).

Definition substep_locals (cfg : TrainConfig) : locals :=
  {| loss_l2 := mul mse_loss (lit (l_rec cfg));
     loss_lpips := mul lpips_mean (lit (l_lpips cfg));
     loss_clipsim :=
       if Qpositive (l_clipsim cfg)
       then Some (sub (lit 1%Q) (div clipsim_mean (lit 100%Q)))
       else None;
     lossG := mul disc_for_G (lit (l_gan cfg));
     lossD := add (mul disc_for_real (lit (l_gan cfg)))
                  (mul disc_for_fake (lit (l_gan cfg))) |}.

Definition entered (st : state) : state :=
  {| global_step := global_step st;
     accumulate_calls := S (accumulate_calls st) |}.

Definition sync_now (w : World) (st : state) : bool :=
  sync_gradients w gradient_accumulation_steps (accumulate_calls st).

(** A computation that leaves the state alone. *)
Definition stateless {A} (m : M A) : Prop := forall s, final (m s) = s.

(** The events of the reporting block. *)
Definition report_event (e : event) : bool :=
  match e with
  | ProgressUpdate | SaveModel _ | Makedirs _ | FolderFeatures _
  | TrackerLog _ _ => true
  | _ => validation_event e
  end.

(** [advanced w st st']: [st'] is [st] after some micro-steps, each
    synchronized one having added one to the counter. *)
Definition advanced (w : World) (st st' : state) : Prop :=
  (accumulate_calls st <= accumulate_calls st')%nat /\
  global_step st' =
  global_step st
  + Z.of_nat (syncs w (accumulate_calls st)
                (accumulate_calls st' - accumulate_calls st)).

Definition cfg_clipsim : TrainConfig := {|
  device := "cuda"; seed := None; output_dir := "exp/sketchy_v2";
  dataset_type := "sketchy"; dataset_folder := "data/SketchyCaptions";
  train_batch_size := 4; eval_batch_size := 1; epoch_num := 5;
  l_rec := 1%Q; l_lpips := 5%Q; l_clipsim := 5%Q; l_gan := (1 # 2)%Q;
  image_log_freq := 100; model_log_freq := 500; eval_freq := 100;
  num_samples_to_eval := 100; track_fid_metrci_val := false |}.

Definition one_image : Batch := {| shape_B := 1; caption := ["a cat"] |}.

(** The main process with an accelerator that reports every micro-step as
    synchronized; the policy that accelerate follows for a loader of [n]
    batches is [accelerate_sync n]. *)
Definition lone_world : World := {|
  is_main_process := true;
  sync_gradients := fun _ _ => true;
  len_dataset_train := 8;
  dl_train := fun _ => [one_image; one_image];
  dl_val := [one_image; one_image] |}.

(** The values of [cfg.dataset_type] that have a branch in lines 118-158. *)
Definition supported_dataset_types : list string :=
  ["sketchy"; "pokemon"; "pixel"; "paired"].

(** The events of lines 29-116. *)
Definition construct_trace (w : World) (cfg : TrainConfig) : list event :=
  [NewAccelerator 20]
  ++ match seed cfg with Some s => [SetSeed s] | None => [] end
  ++ (if is_main_process w
      then [Makedirs (os_path_join (output_dir cfg) ["checkpoints"]);
            Makedirs (os_path_join (output_dir cfg) ["eval"])]
      else [])
  ++ [Construct Pix2Pix_Turbo; Construct Discriminator; Construct LPIPS;
      Construct CLIP; NewOptimizer Gen; NewScheduler Gen; NewOptimizer Disc;
      NewScheduler Disc].




Definition cfg_pokemon : TrainConfig := {|
  device := "cuda"; seed := None; output_dir := "exp/pokemon";
  dataset_type := "pokemon"; dataset_folder := "";
  train_batch_size := 5; eval_batch_size := 1; epoch_num := 1;
  l_rec := 1%Q; l_lpips := 5%Q; l_clipsim := 0%Q; l_gan := (1 # 2)%Q;
  image_log_freq := 100; model_log_freq := 2; eval_freq := 100;
  num_samples_to_eval := 100; track_fid_metrci_val := false |}.

(** The scalar entries of [logs] (lines 367-374); [None] when
    [loss_clipsim] is read while unassigned. *)
Definition train_logs (cfg : TrainConfig) (l : locals) : option logs_t :=
  let logs :=
    [("lossG", LScalar (lossG l)); ("lossD", LScalar (lossD l));
     ("loss_l2", LScalar (loss_l2 l)); ("loss_lpips", LScalar (loss_lpips l))] in
  if Qpositive (l_clipsim cfg) then
    match loss_clipsim l with
    | Some c => Some (logs ++ [("loss_clipsim", LScalar c)])
    | None => None
    end
  else Some logs.

(** [logs] after lines 378-403. *)
Definition image_logs (cfg : TrainConfig) (b : Batch) (gs : Z) (logs : logs_t)
    : logs_t :=
  if gs mod image_log_freq cfg =? 1 then
    logs ++ [("train/source", LImages (shape_B b));
             ("train/target", LImages (shape_B b));
             ("train/model_output", LImages (shape_B b))]
  else logs.

Definition raised {A} (t : list event) (st : state) (e : exn) : run A :=
  {| trace := t; final := st; result := Raised e |}.

Definition report_main_run (w : World) (cfg : TrainConfig) (b : Batch)
    (l : locals) (gs : Z) (st : state) : run unit :=
  match train_logs cfg l with
  | None => raised [] st (UnboundLocalError "loss_clipsim")
  | Some logs =>
      if image_log_freq cfg =? 0 then raised [] st ZeroDivisionError
      else if model_log_freq cfg =? 0 then raised [] st ZeroDivisionError
      else
        let save :=
          if gs mod model_log_freq cfg =? 1
          then [SaveModel (checkpoint_path cfg gs)] else [] in
        if eval_freq cfg =? 0 then raised save st ZeroDivisionError
        else
          let vp :=
            (if gs mod eval_freq cfg =? 1
             then validation_pass w cfg gs (image_logs cfg b gs logs)
             else ret (image_logs cfg b gs logs)) st in
          {| trace :=
               save ++ trace vp
               ++ match result vp with
                  | Returned lg => [TrackerLog lg gs]
                  | Raised _ => []
                  end;
             final := final vp;
             result :=
               match result vp with
               | Returned _ => Returned tt
               | Raised e => Raised e
               end |}
  end.

Definition stepped (st : state) : state :=
  {| global_step := global_step st + 1; accumulate_calls := accumulate_calls st |}.

Definition assert_msg : string := "Use batch size 1 for eval.".

(** The events of one processed validation batch. *)
Definition val_batch_trace (cfg : TrainConfig) (gs : Z) (step : nat) : list event :=
  [Forward Validation; MseLoss Validation; Lpips Validation;
   Tokenize Validation; ClipSimilarity Validation]
  ++ (if track_fid_metrci_val cfg
      then [SaveImage (val_image_path cfg gs step)] else []).

(** The number of batches that the loop processes when no assertion
    fails. *)
Definition processed (cfg : TrainConfig) (step : nat) (batches : list Batch) : nat :=
  Nat.min (List.length batches) (Z.to_nat (num_samples_to_eval cfg - Z.of_nat step)).

(** [logs] at the end of a validation pass that averaged [n] samples. *)
Definition val_logs (cfg : TrainConfig) (logs : logs_t) (n : nat) : logs_t :=
  (if track_fid_metrci_val cfg then logs ++ [("val/clean_fid", LFid)] else logs)
  ++ [("val/l2", LMean n); ("val/lpips", LMean n); ("val/clipsim", LMean n)].

Definition validation_pass_run (w : World) (cfg : TrainConfig) (gs : Z)
    (logs : logs_t) (st : state) : run logs_t :=
  let vl := validation_loop cfg gs 0 (dl_val w) 0 st in
  {| trace :=
       (if track_fid_metrci_val cfg then [Makedirs (fid_dir cfg gs)] else [])
       ++ trace vl
       ++ match result vl with
          | Returned _ =>
              (if track_fid_metrci_val cfg
               then [FolderFeatures (fid_dir cfg gs); FidFromFeats] else [])
              ++ [GcCollect; EmptyCache]
          | Raised _ => []
          end;
     final := final vl;
     result :=
       match result vl with
       | Returned n => Returned (val_logs cfg logs n)
       | Raised e => Raised e
       end |}.

(** Whether the Python test [gs % freq == 1] is reached with a defined
    value and holds. *)
Definition due (gs freq : Z) : bool := negb (freq =? 0) && (gs mod freq =? 1).

Definition cfg_eval : TrainConfig := {|
  device := "cuda"; seed := Some 42; output_dir := "exp/sketchy_v2";
  dataset_type := "sketchy"; dataset_folder := "data/SketchyCaptions";
  train_batch_size := 4; eval_batch_size := 1; epoch_num := 1;
  l_rec := 1%Q; l_lpips := 5%Q; l_clipsim := 0%Q; l_gan := (1 # 2)%Q;
  image_log_freq := 100; model_log_freq := 500; eval_freq := 2;
  num_samples_to_eval := 1; track_fid_metrci_val := true |}.

Definition two_images : Batch := {| shape_B := 2; caption := ["a cat"; "a dog"] |}.

(** A validation loader whose first batch holds two images. *)
Definition pairs_world : World := {|
  is_main_process := true;
  sync_gradients := fun _ _ => true;
  len_dataset_train := 8;
  dl_train := fun _ => [one_image; one_image];
  dl_val := [two_images; one_image] |}.






(** ** Further event classes *)

Definition is_clip_grad (e : event) : bool :=
  match e with ClipGradNorm _ => true | _ => false end.

(** The calls that compute, apply and clear gradients. *)
Definition is_gradient_call (e : event) : bool :=
  match e with
  | Backward _ | OptimizerStep _ | ZeroGrad _ => true
  | _ => false
  end.

Definition is_tracker_log (e : event) : bool :=
  match e with TrackerLog _ _ => true | _ => false end.

Definition is_save_image (e : event) : bool :=
  match e with SaveImage _ => true | _ => false end.

Definition is_fid (e : event) : bool :=
  match e with FidFromFeats => true | _ => false end.

(** What only the main process may do: create directories, talk to the
    tracker, write checkpoints and images, run the validation pass. *)
Definition main_process_event (e : event) : bool :=
  match e with
  | Makedirs _ | InitTrackers | FolderFeatures _ | SaveModel _
  | TrackerLog _ _ => true
  | _ => validation_event e
  end.

(** The events of lines 29-259. *)
Definition setup_event (e : event) : bool :=
  match e with
  | NewAccelerator _ | SetSeed _ | Makedirs _ | Construct _ | NewOptimizer _
  | NewScheduler _ | NewDataset _ _ | NewDataLoader _ _ _ | Prepare
  | InitTrackers | FolderFeatures _ | Tqdm _ => true
  | _ => false
  end.

(** The keys of a [logs] dict. *)
Definition keys (logs : logs_t) : list string := map fst logs.

(** The loss that the reconstruction step backpropagates (lines 286-303). *)
Definition reconstruction_loss (cfg : TrainConfig) : scalar :=
  if Qpositive (l_clipsim cfg)
  then mul (sub (lit 1%Q) (div clipsim_mean (lit 100%Q))) (lit (l_clipsim cfg))
  else add (mul mse_loss (lit (l_rec cfg))) (mul lpips_mean (lit (l_lpips cfg))).

(** [logs] as handed to [accelerator.log] by a step that completes. *)
Definition step_logs (w : World) (cfg : TrainConfig) (b : Batch) (gs : Z)
    (logs : logs_t) : logs_t :=
  if gs mod eval_freq cfg =? 1
  then val_logs cfg (image_logs cfg b gs logs) (processed cfg 0 (dl_val w))
  else image_logs cfg b gs logs.

(** The number of batches that the training loader yields over [epochs]. *)
Definition total_batches (w : World) (epochs : list nat) : nat :=
  fold_right (fun e n => (List.length (dl_train w e) + n)%nat) 0%nat epochs.


(** Whether a string holds the path separator. *)
Fixpoint has_sep (s : string) : bool :=
  match s with
  | EmptyString => false
  | String c rest => Ascii.eqb c "/"%char || has_sep rest
  end.

(** The directories of lines 45-46. *)
Definition checkpoints_dir (cfg : TrainConfig) : string :=
  os_path_join (output_dir cfg) ["checkpoints"].

Definition eval_dir (cfg : TrainConfig) : string :=
  os_path_join (output_dir cfg) ["eval"].

(** ** The parameters handed to the generator's optimizer: lines 77-94 *)

(** A parameter tensor, as far as lines 77-94 look at it. *)
Record Param : Type := {
  p_id : nat;
  requires_grad : bool
}.

(** What lines 77-94 read of [net_pix2pix]. *)
Record Generator : Type := {
  unet_named_parameters : list (string * Param);
  unet_conv_in_parameters : list Param;
  vae_named_parameters : list (string * Param);
  skip_conv_1_parameters : list Param;
  skip_conv_2_parameters : list Param;
  skip_conv_3_parameters : list Param;
  skip_conv_4_parameters : list Param
}.

(** Python's [sub in s] on strings. *)
Fixpoint contains (sub s : string) : bool :=
  prefix sub s
  || match s with
     | EmptyString => false
     | String _ rest => contains sub rest
     end.

(** The loops of lines 79-82 and 84-87: every parameter whose name passes
    the test is asserted to require gradients and appended to
    [layers_to_opt]. *)
Fixpoint select_parameters (test : string -> bool)
    (named : list (string * Param)) (layers_to_opt : list Param)
    : outcome (list Param) :=
  match named with
  | [] => Returned layers_to_opt
  | (n, _p) :: rest =>
      if test n then
        if requires_grad _p
        then select_parameters test rest (layers_to_opt ++ [_p])
        else Raised (AssertionError "")
      else select_parameters test rest layers_to_opt
  end.

Definition unet_test (n : string) : bool := contains "lora" n.

Definition vae_test (n : string) : bool :=
  contains "lora" n && contains "vae_skip" n.

(** Lines 78-94. *)
Definition layers_to_opt (g : Generator) : outcome (list Param) :=
  match select_parameters unet_test (unet_named_parameters g) [] with
  | Raised e => Raised e
  | Returned l =>
      match select_parameters vae_test (vae_named_parameters g)
              (l ++ unet_conv_in_parameters g) with
      | Raised e => Raised e
      | Returned l =>
          Returned (l ++ skip_conv_1_parameters g ++ skip_conv_2_parameters g
                      ++ skip_conv_3_parameters g ++ skip_conv_4_parameters g)
      end
  end.

(** The parameters of [named] whose name passes [test], in order. *)
Definition selected (test : string -> bool) (named : list (string * Param))
    : list Param :=
  map snd (filter (fun np => test (fst np)) named).

Definition sample_generator : Generator := {|
  unet_named_parameters :=
    [("conv_in.weight", {| p_id := 0; requires_grad := true |});
     ("conv_in.lora_A.default.weight", {| p_id := 1; requires_grad := true |});
     ("down_blocks.0.attn.to_q.weight", {| p_id := 2; requires_grad := false |});
     ("down_blocks.0.attn.to_q.lora_B.default.weight",
      {| p_id := 3; requires_grad := true |})];
  unet_conv_in_parameters :=
    [{| p_id := 0; requires_grad := true |}; {| p_id := 1; requires_grad := true |}];
  vae_named_parameters :=
    [("decoder.conv_in.lora_A.vae_skip.weight",
      {| p_id := 4; requires_grad := true |});
     ("encoder.conv_in.lora_A.other.weight",
      {| p_id := 5; requires_grad := false |})];
  skip_conv_1_parameters := [{| p_id := 6; requires_grad := true |}];
  skip_conv_2_parameters := [{| p_id := 7; requires_grad := true |}];
  skip_conv_3_parameters := [{| p_id := 8; requires_grad := true |}];
  skip_conv_4_parameters := [{| p_id := 9; requires_grad := false |}] |}.

(** A generator with a frozen LoRA weight in the UNet. *)
Definition frozen_generator : Generator := {|
  unet_named_parameters :=
    [("mid_block.lora_A.weight", {| p_id := 0; requires_grad := false |})];
  unet_conv_in_parameters := [];
  vae_named_parameters := [];
  skip_conv_1_parameters := [];
  skip_conv_2_parameters := [];
  skip_conv_3_parameters := [];
  skip_conv_4_parameters := [] |}.

(** Configurations whose frequencies are degenerate. *)
Definition cfg_every_step : TrainConfig := {|
  device := "cuda"; seed := None; output_dir := "exp/pixel";
  dataset_type := "pixel"; dataset_folder := "";
  train_batch_size := 4; eval_batch_size := 1; epoch_num := 2;
  l_rec := 1%Q; l_lpips := 5%Q; l_clipsim := 0%Q; l_gan := (1 # 2)%Q;
  image_log_freq := 1; model_log_freq := 1; eval_freq := 1;
  num_samples_to_eval := 10; track_fid_metrci_val := true |}.

Definition cfg_zero_eval : TrainConfig := {|
  device := "cuda"; seed := None; output_dir := "exp/pixel";
  dataset_type := "pixel"; dataset_folder := "";
  train_batch_size := 4; eval_batch_size := 1; epoch_num := 2;
  l_rec := 1%Q; l_lpips := 5%Q; l_clipsim := 0%Q; l_gan := (1 # 2)%Q;
  image_log_freq := 100; model_log_freq := 2; eval_freq := 0;
  num_samples_to_eval := 10; track_fid_metrci_val := true |}.

(** A process that is not the main one. *)
Definition worker_world : World := {|
  is_main_process := false;
  sync_gradients := fun _ _ => true;
  len_dataset_train := 8;
  dl_train := fun _ => [one_image; one_image];
  dl_val := [one_image; two_images] |}.


Definition is_folder_features (e : event) : bool :=
  match e with FolderFeatures _ => true | _ => false end.

(** The events of the loop over the validation batches. *)
Definition val_batch_event (e : event) : bool :=
  match e with
  | Forward Validation | MseLoss Validation | Lpips Validation
  | Tokenize Validation | ClipSimilarity Validation | SaveImage _ => true
  | _ => false
  end.

Definition cfg_no_samples : TrainConfig := {|
  device := "cuda"; seed := None; output_dir := "exp/pixel";
  dataset_type := "pixel"; dataset_folder := "";
  train_batch_size := 4; eval_batch_size := 2; epoch_num := 1;
  l_rec := 1%Q; l_lpips := 5%Q; l_clipsim := 0%Q; l_gan := (1 # 2)%Q;
  image_log_freq := 100; model_log_freq := 100; eval_freq := 2;
  num_samples_to_eval := 0; track_fid_metrci_val := false |}.

(** A world with two training batches per epoch and the policy of
    accelerate: the first micro-step of an epoch is not synchronized. *)
Definition accumulating_world : World := {|
  is_main_process := true;
  sync_gradients := accelerate_sync 2;
  len_dataset_train := 8;
  dl_train := fun _ => [one_image; one_image];
  dl_val := [two_images] |}.

(** ** Generic facts *)

Lemma count_app p t u : count p (t ++ u) = (count p t + count p u)%nat.
Proof. unfold count. now rewrite filter_app, length_app. Qed.

Lemma count_nil p : count p [] = 0%nat.
Proof. reflexivity. Qed.

Lemma none_app p t u : none p (t ++ u) <-> none p t /\ none p u.
Proof. unfold none. apply Forall_app. Qed.

Lemma none_count p t : none p t -> count p t = 0%nat.
Proof.
  unfold none, count. induction 1 as [|e t He _ IH]; simpl.
  - reflexivity.
  - now rewrite He.
Qed.

Lemma none_In p t e : none p t -> In e t -> p e = false.
Proof. unfold none. rewrite Forall_forall. auto. Qed.

Lemma none_weaken (p q : event -> bool) t :
  (forall e, p e = false -> q e = false) -> none p t -> none q t.
Proof. unfold none. intros H. apply Forall_impl. exact H. Qed.

Lemma bind_trace {A B} (m : M A) (f : A -> M B) s :
  trace (bind m f s) =
  match result (m s) with
  | Returned a => trace (m s) ++ trace (f a (final (m s)))
  | Raised _ => trace (m s)
  end.
Proof. unfold bind. now destruct (result (m s)). Qed.

Lemma bind_result {A B} (m : M A) (f : A -> M B) s :
  result (bind m f s) =
  match result (m s) with
  | Returned a => result (f a (final (m s)))
  | Raised e => Raised e
  end.
Proof. unfold bind. now destruct (result (m s)). Qed.

Lemma bind_final {A B} (m : M A) (f : A -> M B) s :
  final (bind m f s) =
  match result (m s) with
  | Returned a => final (f a (final (m s)))
  | Raised _ => final (m s)
  end.
Proof. unfold bind. now destruct (result (m s)). Qed.

Lemma Qpositive_true q : Qpositive q = true <-> (0 < q)%Q.
Proof.
  unfold Qpositive. rewrite negb_true_iff, <- not_true_iff_false, Qle_bool_iff.
  split.
  - apply Qnot_le_lt.
  - apply Qlt_not_le.
Qed.

Lemma Qpositive_zero q : (q == 0)%Q -> Qpositive q = false.
Proof.
  intros H. unfold Qpositive. rewrite negb_false_iff, Qle_bool_iff, H.
  apply Qle_refl.
Qed.

(** ** The shape of a micro-step *)

Lemma accumulate_bind {B} w (k : bool -> M B) st :
  bind (accumulate w) k st = bind (ret (sync_now w st)) k (entered st).
Proof. reflexivity. Qed.

Lemma micro_step_eq w cfg b st :
  micro_step w cfg b st =
  let r := when (sync_now w st) (report w cfg b (substep_locals cfg)) (entered st) in
  {| trace := substep_trace cfg (sync_now w st) ++ trace r;
     final := final r;
     result := result r |}.
Proof.
  unfold micro_step. rewrite accumulate_bind.
  unfold substep_trace, substep_locals, reconstruction_step.
  destruct (Qpositive (l_clipsim cfg)); destruct (sync_now w st); reflexivity.
Qed.

Lemma substep_trace_training cfg sync :
  Forall (fun e => training_event e = true) (substep_trace cfg sync).
Proof.
  unfold substep_trace, reconstruction_step, generator_step, disc_real_step,
    disc_fake_step.
  destruct (Qpositive (l_clipsim cfg)); destruct sync; cbn;
    repeat constructor.
Qed.

(** ** Compositional reasoning on traces and states *)

Section TraceAll.
Variable P : event -> Prop.

Lemma all_bind {A B} (m : M A) (f : A -> M B) s :
  Forall P (trace (m s)) ->
  (forall a s', Forall P (trace (f a s'))) ->
  Forall P (trace (bind m f s)).
Proof.
  intros Hm Hf. rewrite bind_trace. destruct (result (m s)).
  - apply Forall_app. split; [exact Hm | apply Hf].
  - exact Hm.
Qed.

Lemma all_emit e s : P e -> Forall P (trace (emit e s)).
Proof. intros H. repeat constructor. exact H. Qed.

Lemma all_ret {A} (a : A) s : Forall P (trace (ret a s)).
Proof. constructor. Qed.

Lemma all_raise {A} e s : Forall P (trace (@raise A e s)).
Proof. constructor. Qed.

Lemma all_when b m s :
  (b = true -> Forall P (trace (m s))) -> Forall P (trace (when b m s)).
Proof. destruct b; intros H; [now apply H | constructor]. Qed.

Lemma all_py_mod a b s : Forall P (trace (py_mod a b s)).
Proof. unfold py_mod. destruct (b =? 0); constructor. Qed.
End TraceAll.

Lemma stateless_bind {A B} (m : M A) (f : A -> M B) :
  stateless m -> (forall a, stateless (f a)) -> stateless (bind m f).
Proof.
  intros Hm Hf s. rewrite bind_final. destruct (result (m s)).
  - now rewrite Hf, Hm.
  - apply Hm.
Qed.

Lemma stateless_emit e : stateless (emit e).
Proof. now intros s. Qed.

Lemma stateless_ret {A} (a : A) : stateless (ret a).
Proof. now intros s. Qed.

Lemma stateless_raise {A} e : stateless (@raise A e).
Proof. now intros s. Qed.

Lemma stateless_when b m : stateless m -> stateless (when b m).
Proof. destruct b; [auto | intros _ s; reflexivity]. Qed.

Lemma stateless_py_mod a b : stateless (py_mod a b).
Proof. unfold py_mod. destruct (b =? 0); now intros s. Qed.

Ltac stateless_tac :=
  repeat first
    [ apply stateless_bind; [ | intros ? ]
    | apply stateless_emit
    | apply stateless_ret
    | apply stateless_raise
    | apply stateless_py_mod
    | apply stateless_when ].

Ltac all_tac :=
  repeat first
    [ apply all_bind; [ | intros ? ? ]
    | apply all_emit; reflexivity
    | apply all_ret
    | apply all_raise
    | apply all_py_mod
    | apply all_when; intros ? ].

(** ** The validation pass *)

Lemma validation_loop_stateless cfg gs batches :
  forall step n, stateless (validation_loop cfg gs step batches n).
Proof.
  induction batches as [|b rest IH]; intros step n; simpl.
  - apply stateless_ret.
  - destruct (Z.of_nat step >=? num_samples_to_eval cfg).
    + apply stateless_ret.
    + destruct (shape_B b =? 1); stateless_tac. apply IH.
Qed.

Lemma validation_loop_events cfg gs batches :
  forall step n s,
    Forall (fun e => validation_event e = true)
           (trace (validation_loop cfg gs step batches n s)).
Proof.
  induction batches as [|b rest IH]; intros step n s; simpl.
  - constructor.
  - destruct (Z.of_nat step >=? num_samples_to_eval cfg).
    + constructor.
    + destruct (shape_B b =? 1); all_tac. apply IH.
Qed.

Lemma validation_event_report e : validation_event e = true -> report_event e = true.
Proof. destruct e; simpl; intros H; try reflexivity; try discriminate; exact H. Qed.

Lemma validation_pass_stateless w cfg gs logs :
  stateless (validation_pass w cfg gs logs).
Proof.
  unfold validation_pass. stateless_tac.
  - apply validation_loop_stateless.
  - destruct (track_fid_metrci_val cfg); stateless_tac.
Qed.

Lemma validation_pass_events w cfg gs logs s :
  Forall (fun e => report_event e = true) (trace (validation_pass w cfg gs logs s)).
Proof.
  unfold validation_pass. all_tac.
  - eapply Forall_impl; [ | apply validation_loop_events ].
    apply validation_event_report.
  - destruct (track_fid_metrci_val cfg); all_tac.
Qed.

Lemma report_main_stateless w cfg b l gs : stateless (report_main w cfg b l gs).
Proof.
  unfold report_main. stateless_tac.
  - destruct (Qpositive (l_clipsim cfg)); [destruct (loss_clipsim l) | ];
      stateless_tac.
  - match goal with |- stateless (if ?c then _ else _) => destruct c end;
      [apply validation_pass_stateless | apply stateless_ret].
Qed.

Lemma report_main_events w cfg b l gs s :
  Forall (fun e => report_event e = true) (trace (report_main w cfg b l gs s)).
Proof.
  unfold report_main. all_tac.
  - destruct (Qpositive (l_clipsim cfg)); [destruct (loss_clipsim l) | ]; all_tac.
  - match goal with |- Forall _ (trace ((if ?c then _ else _) _)) => destruct c end;
      [apply validation_pass_events | apply all_ret].
Qed.

Lemma report_final w cfg b l st :
  final (report w cfg b l st) =
  {| global_step := global_step st + 1; accumulate_calls := accumulate_calls st |}.
Proof.
  unfold report.
  rewrite bind_final. cbn [emit result final].
  rewrite bind_final. cbn [get result final].
  rewrite bind_final. cbn [put result final].
  destruct (is_main_process w); cbn [when].
  - apply report_main_stateless.
  - reflexivity.
Qed.

Lemma report_events w cfg b l st :
  Forall (fun e => report_event e = true) (trace (report w cfg b l st)).
Proof.
  unfold report.
  apply all_bind; [apply all_emit; reflexivity | intros _ s1].
  apply all_bind; [constructor | intros s s2].
  apply all_bind; [constructor | intros _ s3].
  apply all_when. intros _. apply report_main_events.
Qed.

(** ** The global step counter *)

Lemma micro_step_final w cfg b st :
  final (micro_step w cfg b st) =
  {| global_step := global_step st + (if sync_now w st then 1 else 0);
     accumulate_calls := S (accumulate_calls st) |}.
Proof.
  rewrite micro_step_eq. cbn [final].
  destruct (sync_now w st); cbn [when].
  - rewrite report_final. reflexivity.
  - unfold ret, entered. cbn. f_equal. lia.
Qed.

Lemma syncs_add w from n m :
  syncs w from (n + m) = (syncs w from n + syncs w (from + n) m)%nat.
Proof.
  revert from. induction n as [|n IH]; intros from; simpl.
  - now rewrite Nat.add_0_r.
  - rewrite IH. replace (S from + n)%nat with (from + S n)%nat by lia. lia.
Qed.

Lemma advanced_refl w st : advanced w st st.
Proof. split; [lia | rewrite Nat.sub_diag; simpl; lia]. Qed.

Lemma advanced_trans w s1 s2 s3 :
  advanced w s1 s2 -> advanced w s2 s3 -> advanced w s1 s3.
Proof.
  intros [H1 E1] [H2 E2]. split; [lia | ].
  replace (accumulate_calls s3 - accumulate_calls s1)%nat
    with ((accumulate_calls s2 - accumulate_calls s1)
          + (accumulate_calls s3 - accumulate_calls s2))%nat by lia.
  rewrite syncs_add.
  replace (accumulate_calls s1 + (accumulate_calls s2 - accumulate_calls s1))%nat
    with (accumulate_calls s2) by lia.
  lia.
Qed.

Lemma advanced_micro_step w cfg b st :
  advanced w st (final (micro_step w cfg b st)).
Proof.
  rewrite micro_step_final. split; cbn [accumulate_calls global_step]; [lia | ].
  replace (S (accumulate_calls st) - accumulate_calls st)%nat with 1%nat by lia.
  cbn [syncs]. unfold sync_now. destruct (sync_gradients _ _ _); reflexivity.
Qed.

Lemma advanced_for_batches w cfg batches :
  forall st, advanced w st (final (for_batches w cfg batches st)).
Proof.
  induction batches as [|b rest IH]; intros st; cbn [for_batches].
  - apply advanced_refl.
  - rewrite bind_final. destruct (result (micro_step w cfg b st)).
    + eapply advanced_trans; [apply advanced_micro_step | apply IH].
    + apply advanced_micro_step.
Qed.

Lemma advanced_for_epochs w cfg epochs :
  forall st, advanced w st (final (for_epochs w cfg epochs st)).
Proof.
  induction epochs as [|e rest IH]; intros st; cbn [for_epochs].
  - apply advanced_refl.
  - rewrite bind_final. destruct (result (for_batches w cfg (dl_train w e) st)).
    + eapply advanced_trans; [apply advanced_for_batches | apply IH].
    + apply advanced_for_batches.
Qed.

Lemma advanced_le w st st' : advanced w st st' -> global_step st <= global_step st'.
Proof. intros [_ E]. lia. Qed.

Lemma training_loop_final w cfg st :
  final (training_loop w cfg st) =
  final (for_epochs w cfg (seq 0 (Z.to_nat (epoch_num cfg)))
           {| global_step := 0; accumulate_calls := accumulate_calls st |}).
Proof. reflexivity. Qed.

(** C6: the loop over the epochs starts with the counter at 0; a micro-step
    adds exactly 1 to it when [accelerator.sync_gradients] is set and
    leaves it unchanged otherwise, whatever the accelerator's policy; it
    never decreases over the batches of an epoch or over the epochs; and at
    the end of the loop, however it ends, it is the number of synchronized
    micro-steps among those that were begun. *)
Theorem C6_global_step_counts_synchronized_steps :
  forall (w : World) (cfg : TrainConfig),
    (forall st,
        final (training_loop w cfg st) =
        final (for_epochs w cfg (seq 0 (Z.to_nat (epoch_num cfg)))
                 {| global_step := 0; accumulate_calls := accumulate_calls st |})) /\
    (forall b st,
        global_step (final (micro_step w cfg b st)) =
        global_step st
        + (if sync_gradients w gradient_accumulation_steps (accumulate_calls st)
           then 1 else 0)) /\
    (forall batches st,
        global_step st <= global_step (final (for_batches w cfg batches st))) /\
    (forall epochs st,
        global_step st <= global_step (final (for_epochs w cfg epochs st))) /\
    (forall st,
        let st' := final (training_loop w cfg st) in
        global_step st' =
        Z.of_nat (syncs w (accumulate_calls st)
                    (accumulate_calls st' - accumulate_calls st))).
Proof.
  intros w cfg. repeat split.
  - intros b st. rewrite micro_step_final. reflexivity.
  - intros batches st. eapply advanced_le, advanced_for_batches.
  - intros epochs st. eapply advanced_le, advanced_for_epochs.
  - intros st st'. subst st'. rewrite training_loop_final.
    destruct (advanced_for_epochs w cfg (seq 0 (Z.to_nat (epoch_num cfg)))
                {| global_step := 0; accumulate_calls := accumulate_calls st |})
      as [_ E].
    exact E.
Qed.

(** With the policy of accelerate and the group size 20 of line 31, an
    epoch of forty micro-steps makes two steps of the counter. *)
Example forty_micro_steps :
  let w := {| is_main_process := false; sync_gradients := accelerate_sync 40;
              len_dataset_train := 40;
              dl_train := fun _ => repeat {| shape_B := 1; caption := [] |} 40;
              dl_val := [] |} in
  forall cfg,
    final (for_batches w cfg (dl_train w 0%nat) initial) =
    {| global_step := 2; accumulate_calls := 40 |}.
Proof.
  intros w cfg.
  assert (H : forall n st,
             final (for_batches w cfg (repeat {| shape_B := 1; caption := [] |} n) st) =
             {| global_step := global_step st
                               + Z.of_nat (syncs w (accumulate_calls st) n);
                accumulate_calls := accumulate_calls st + n |}).
  { induction n as [|n IH]; intros st; cbn [repeat for_batches].
    - destruct st. cbn. f_equal; lia.
    - rewrite bind_final, micro_step_eq. cbn [result final].
      assert (R : result (when (sync_now w st)
                            (report w cfg {| shape_B := 1; caption := [] |}
                               (substep_locals cfg)) (entered st)) = Returned tt).
      { destruct (sync_now w st); reflexivity. }
      rewrite R, IH.
      pose proof (micro_step_final w cfg {| shape_B := 1; caption := [] |} st) as F.
      rewrite micro_step_eq in F. cbn [final] in F. rewrite F.
      cbn [global_step accumulate_calls syncs]. unfold sync_now.
      destruct (sync_gradients w gradient_accumulation_steps (accumulate_calls st));
        f_equal; lia. }
  cbn [dl_train w]. rewrite H. reflexivity.
Qed.

(** ** The reconstruction step *)

(** C1: when the text-similarity weight is positive, the one loss that the
    reconstruction step hands to [accelerator.backward] is
    [loss_clipsim * cfg.l_clipsim]: it mentions neither the MSE nor the
    LPIPS term and its value does not depend on them, although both were
    computed (and are returned for logging); the same holds for the first
    backward call of the whole micro-step. *)
Theorem C1_clipsim_loss_replaces_reconstruction_loss :
  forall (w : World) (cfg : TrainConfig) (b : Batch) (sync : bool) (st : state),
    (0 < l_clipsim cfg)%Q ->
    let loss_clipsim := sub (lit 1%Q) (div clipsim_mean (lit 100%Q)) in
    let loss := mul loss_clipsim (lit (l_clipsim cfg)) in
    let r := reconstruction_step cfg sync st in
    filter is_backward (trace r) = [Backward loss] /\
    hd_error (filter is_backward (trace (micro_step w cfg b st))) =
      Some (Backward loss) /\
    mentions mse_loss loss = false /\
    mentions lpips_mean loss = false /\
    (forall o o', o_clipsim o = o_clipsim o' -> eval o loss = eval o' loss) /\
    In (MseLoss Training) (trace r) /\
    In (Lpips Training) (trace r) /\
    result r =
      Returned (mul mse_loss (lit (l_rec cfg)),
                mul lpips_mean (lit (l_lpips cfg)),
                Some loss_clipsim).
Proof.
  intros w cfg b sync st H loss_clipsim loss r.
  apply Qpositive_true in H.
  assert (Hr : trace r =
               [Forward Training; MseLoss Training; Lpips Training;
                Tokenize Training; ClipSimilarity Training; Backward loss]
               ++ (if sync then [ClipGradNorm Gen] else [])
               ++ [OptimizerStep Gen; SchedulerStep Gen; ZeroGrad Gen]).
  { subst r. unfold reconstruction_step. rewrite H. destruct sync; reflexivity. }
  repeat split.
  - rewrite Hr. destruct sync; reflexivity.
  - rewrite micro_step_eq. cbn [trace]. unfold substep_trace.
    unfold reconstruction_step at 1. rewrite H.
    destruct (sync_now w st); reflexivity.
  - intros o o' E. cbn [eval loss loss_clipsim]. now rewrite E.
  - rewrite Hr. cbn. tauto.
  - rewrite Hr. cbn. tauto.
  - subst r. unfold reconstruction_step. rewrite H. destruct sync; reflexivity.
Qed.

Lemma C1_witness :
  (0 < l_clipsim cfg_clipsim)%Q /\
  filter is_backward (trace (reconstruction_step cfg_clipsim true initial)) =
  [Backward (mul (sub (lit 1%Q) (div clipsim_mean (lit 100%Q))) (lit 5%Q))].
Proof.
  assert (H : (0 < l_clipsim cfg_clipsim)%Q) by reflexivity.
  split; [exact H | ].
  exact (proj1 (C1_clipsim_loss_replaces_reconstruction_loss
                  lone_world cfg_clipsim one_image true initial H)).
Defined.

(** ** The discriminator's scheduler *)

Lemma none_report_training w cfg b l st :
  none training_event (trace (report w cfg b l st)).
Proof.
  eapply Forall_impl; [ | apply report_events ].
  intros e. destruct e as [| | | | | | | | | | | | p | p | p | p | p | | | | | | | | | | | | ];
    try destruct p; simpl; intros H; try reflexivity; discriminate.
Qed.

Lemma scheduler_step_training s e :
  training_event e = false -> is_scheduler_step s e = false.
Proof. destruct e as [| | | | | | | | | | | | | | | | | | | | s' | | | | | | | | ];
         try reflexivity. discriminate. Qed.

(** C9: in every micro-step the discriminator's scheduler is stepped
    exactly once; that step belongs to the discriminator-real branch,
    while the discriminator-fake branch steps the discriminator's
    optimizer once and its scheduler not at all; the two generator
    branches and the reporting block do not step it either. *)
Theorem C9_discriminator_scheduler_stepped_once :
  forall (w : World) (cfg : TrainConfig) (b : Batch) (sync : bool) (st : state),
    count (is_scheduler_step Disc) (trace (micro_step w cfg b st)) = 1%nat /\
    count (is_scheduler_step Disc) (trace (disc_real_step cfg sync st)) = 1%nat /\
    count (is_scheduler_step Disc) (trace (disc_fake_step cfg sync st)) = 0%nat /\
    count (is_optimizer_step Disc) (trace (disc_fake_step cfg sync st)) = 1%nat /\
    count (is_scheduler_step Disc) (trace (reconstruction_step cfg sync st)) = 0%nat /\
    count (is_scheduler_step Disc) (trace (generator_step cfg sync st)) = 0%nat.
Proof.
  intros w cfg b sync st. repeat split.
  - rewrite micro_step_eq. cbn [trace]. rewrite count_app.
    replace (count (is_scheduler_step Disc)
               (trace (when (sync_now w st)
                         (report w cfg b (substep_locals cfg)) (entered st))))
      with 0%nat.
    + unfold substep_trace, reconstruction_step.
      destruct (Qpositive (l_clipsim cfg)); destruct (sync_now w st); reflexivity.
    + symmetry. apply none_count.
      destruct (sync_now w st); cbn [when].
      * eapply none_weaken; [ | apply none_report_training ].
        apply scheduler_step_training.
      * constructor.
  - destruct sync; reflexivity.
  - destruct sync; reflexivity.
  - destruct sync; reflexivity.
  - unfold reconstruction_step.
    destruct (Qpositive (l_clipsim cfg)); destruct sync; reflexivity.
  - destruct sync; reflexivity.
Qed.

(** ** Set-up and the dataset dispatch *)

Lemma construct_models_eq w cfg st :
  construct_models w cfg st =
  {| trace := construct_trace w cfg; final := st; result := Returned tt |}.
Proof.
  unfold construct_models, construct_trace.
  destruct (seed cfg); destruct (is_main_process w); reflexivity.
Qed.

















(** C4, as the code has it: every supported [dataset_type] selects the
    constructor of its own class, and the training dataset is always built
    with [split="train"]; the validation dataset is built with
    [split="val"] for "sketchy" only, with [split="train"] again for
    "pokemon" and "pixel", and is not built at all for "paired". *)
Theorem C4_dataset_dispatch_table :
  forall (cfg : TrainConfig) (st : state),
    In (dataset_type cfg) supported_dataset_types ->
    let r := dataset_dispatch cfg st in
    let folder := Some (dataset_folder cfg) in
    let built c split_train f split_val :=
      r = {| trace :=
               NewDataset Train
                 {| ds_class := c; ds_split := split_train; ds_folder := f |}
               :: match split_val with
                  | Some v =>
                      [NewDataset Val
                         {| ds_class := c; ds_split := v; ds_folder := f |}]
                  | None => []
                  end;
             final := st;
             result :=
               Returned
                 ({| ds_class := c; ds_split := split_train; ds_folder := f |},
                  match split_val with
                  | Some v =>
                      Some {| ds_class := c; ds_split := v; ds_folder := f |}
                  | None => None
                  end) |} in
    (dataset_type cfg = "sketchy" /\
     built SketchyDataset "train" folder (Some "val")) \/
    (dataset_type cfg = "pokemon" /\
     built PokemonDataset "train" None (Some "train")) \/
    (dataset_type cfg = "pixel" /\
     built PixelDataset "train" None (Some "train")) \/
    (dataset_type cfg = "paired" /\
     built PairedDataset "train" folder None).
Proof.
  intros cfg st H r folder built. subst r built folder.
  unfold supported_dataset_types in H. cbn [In] in H.
  unfold dataset_dispatch.
  destruct H as [H | [H | [H | [H | []]]]]; rewrite <- H; cbn.
  - left. split; reflexivity.
  - right. left. split; reflexivity.
  - right. right. left. split; reflexivity.
  - right. right. right. split; reflexivity.
Qed.

Lemma C4_witness :
  In (dataset_type cfg_pokemon) supported_dataset_types /\
  result (dataset_dispatch cfg_pokemon initial) =
  Returned ({| ds_class := PokemonDataset; ds_split := "train"; ds_folder := None |},
            Some {| ds_class := PokemonDataset; ds_split := "train";
                    ds_folder := None |}).
Proof.
  assert (H : In (dataset_type cfg_pokemon) supported_dataset_types)
    by (cbn; tauto).
  split; [exact H | ].
  destruct (C4_dataset_dispatch_table cfg_pokemon initial H)
    as [[E _] | [[_ E] | [[E _] | [E _]]]];
    try discriminate E.
  rewrite E. reflexivity.
Defined.

(** The claim that the validation dataset gets a validation split fails
    for "pokemon" (and likewise for "pixel"): [dataset_val] is built with
    the very split of [dataset_train], "train". *)
Lemma C4_counterexample :
  In (dataset_type cfg_pokemon) supported_dataset_types /\
  filter is_data_event (trace (dataset_dispatch cfg_pokemon initial)) =
    [NewDataset Train
       {| ds_class := PokemonDataset; ds_split := "train"; ds_folder := None |};
     NewDataset Val
       {| ds_class := PokemonDataset; ds_split := "train"; ds_folder := None |}].
Proof.
  split; [cbn; tauto | reflexivity].
Qed.

(** ** The reporting block in normal form *)

Lemma report_main_eq w cfg b l gs st :
  report_main w cfg b l gs st = report_main_run w cfg b l gs st.
Proof.
  unfold report_main, report_main_run, train_logs, image_logs, py_mod, raised.
  set (vp := validation_pass w cfg gs). clearbody vp.
  destruct (Qpositive (l_clipsim cfg)); [destruct (loss_clipsim l) | ];
    try reflexivity;
    (destruct (image_log_freq cfg =? 0); [reflexivity | ];
     destruct (model_log_freq cfg =? 0); [reflexivity | ];
     destruct (eval_freq cfg =? 0);
     cbv beta iota zeta delta [bind ret emit raise trace final result];
     destruct (gs mod model_log_freq cfg =? 1); try reflexivity;
     destruct (gs mod image_log_freq cfg =? 1);
     destruct (gs mod eval_freq cfg =? 1);
     cbv beta iota zeta delta [when ret emit trace final result];
     match goal with
     | |- context [vp ?lg st] => destruct (vp lg st) as [t f [lg' | e]]
     | _ => idtac
     end;
     cbn [app trace final result]; rewrite ?app_nil_r; reflexivity).
Qed.

Lemma report_eq w cfg b l st :
  report w cfg b l st =
  let r := when (is_main_process w)
             (report_main w cfg b l (global_step st + 1)) (stepped st) in
  {| trace := ProgressUpdate :: trace r; final := final r; result := result r |}.
Proof. reflexivity. Qed.

(** ** The validation loop and pass in normal form *)

Lemma validation_loop_cons cfg gs step b rest n st :
  validation_loop cfg gs step (b :: rest) n st =
  if Z.of_nat step >=? num_samples_to_eval cfg then ret n st
  else if shape_B b =? 1 then
    let r := validation_loop cfg gs (S step) rest (S n) st in
    {| trace := val_batch_trace cfg gs step ++ trace r;
       final := final r; result := result r |}
  else raised [] st (AssertionError assert_msg).
Proof.
  cbn [validation_loop]. unfold val_batch_trace.
  destruct (Z.of_nat step >=? num_samples_to_eval cfg); [reflexivity | ].
  destruct (shape_B b =? 1); [ | reflexivity].
  destruct (track_fid_metrci_val cfg); reflexivity.
Qed.

Lemma val_batch_counts cfg gs step :
  count (is_forward Validation) (val_batch_trace cfg gs step) = 1%nat /\
  count (is_tokenize Validation) (val_batch_trace cfg gs step) = 1%nat /\
  count (is_clip_similarity Validation) (val_batch_trace cfg gs step) = 1%nat.
Proof.
  unfold val_batch_trace. destruct (track_fid_metrci_val cfg); repeat split.
Qed.

Lemma validation_loop_counts cfg gs batches :
  forall step n st,
    let t := trace (validation_loop cfg gs step batches n st) in
    (count (is_forward Validation) t <= processed cfg step batches)%nat /\
    count (is_tokenize Validation) t = count (is_forward Validation) t /\
    count (is_clip_similarity Validation) t = count (is_forward Validation) t /\
    (forall n', result (validation_loop cfg gs step batches n st) = Returned n' ->
                count (is_forward Validation) t = processed cfg step batches /\
                n' = (n + processed cfg step batches)%nat).
Proof.
  unfold processed.
  induction batches as [|b rest IH]; intros step n st.
  - cbn. repeat split; try lia. injection H as <-. lia.
  - rewrite validation_loop_cons.
    destruct (Z.geb_spec (Z.of_nat step) (num_samples_to_eval cfg)) as [Hge | Hlt].
    + cbn [ret trace result]. rewrite !count_nil.
      repeat split; try lia. injection H as <-. lia.
    + destruct (shape_B b =? 1).
      * cbn zeta. cbn [trace result]. rewrite !count_app.
        destruct (val_batch_counts cfg gs step) as (F & T & C).
        rewrite F, T, C.
        destruct (IH (S step) (S n) st) as (B1 & B2 & B3 & B4).
        cbn [Datatypes.length].
        split; [lia | split; [lia | split; [lia | ]]].
        intros n' H. apply B4 in H. lia.
      * unfold raised. cbn [trace result]. rewrite !count_nil.
        repeat split; try lia; discriminate.
Qed.


Lemma validation_loop_returns cfg gs batches :
  forall step n st,
    (forall i b, nth_error batches i = Some b ->
                 Z.of_nat (step + i) < num_samples_to_eval cfg ->
                 shape_B b = 1) ->
    result (validation_loop cfg gs step batches n st) =
    Returned (n + processed cfg step batches)%nat.
Proof.
  unfold processed.
  induction batches as [|b0 rest IH]; intros step n st H.
  - cbn. f_equal. lia.
  - rewrite validation_loop_cons.
    destruct (Z.geb_spec (Z.of_nat step) (num_samples_to_eval cfg)).
    + cbn [ret result]. f_equal. lia.
    + rewrite (H 0%nat b0 eq_refl) by lia. cbn [Z.eqb Pos.eqb]. cbn zeta.
      cbn [result]. rewrite IH.
      * f_equal. cbn [Datatypes.length]. lia.
      * intros i b Hi Hlt. apply (H (S i) b Hi). lia.
Qed.

Lemma validation_pass_eq w cfg gs logs st :
  validation_pass w cfg gs logs st = validation_pass_run w cfg gs logs st.
Proof.
  unfold validation_pass, validation_pass_run, val_logs.
  destruct (track_fid_metrci_val cfg);
    cbv beta iota zeta delta [bind when ret emit trace final result];
    destruct (validation_loop cfg gs 0 (dl_val w) 0 st) as [t f [n | e]];
    cbn [app trace final result]; rewrite ?app_nil_r; reflexivity.
Qed.

(** Events that a validation pass never produces. *)
Lemma validation_pass_none p w cfg gs logs st :
  (forall e, validation_event e = true -> p e = false) ->
  (forall s, p (Makedirs s) = false) ->
  (forall s, p (FolderFeatures s) = false) ->
  none p (trace (validation_pass w cfg gs logs st)).
Proof.
  intros Hv Hm Hf. rewrite validation_pass_eq. unfold validation_pass_run.
  cbn [trace]. apply none_app. split.
  - destruct (track_fid_metrci_val cfg); repeat constructor. apply Hm.
  - apply none_app. split.
    + eapply Forall_impl; [ | apply validation_loop_events ]. exact Hv.
    + destruct (result _); [ | constructor].
      destruct (track_fid_metrci_val cfg); repeat constructor;
        try apply Hf; apply Hv; reflexivity.
Qed.

(** ** Paths *)

Lemma string_app_assoc (a b c : string) :
  ((a ++ b) ++ c)%string = (a ++ b ++ c)%string.
Proof. induction a as [|x a IH]; cbn; [reflexivity | now rewrite IH]. Qed.

Lemma last_char_app (a s : string) :
  s <> "" -> last_char (a ++ s)%string = last_char s.
Proof.
  intros Hs. induction a as [|x a IH]; [reflexivity | ].
  cbn [append last_char]. rewrite IH.
  destruct (a ++ s)%string eqn:E; [ | reflexivity].
  destruct a; cbn in E; [contradiction | discriminate].
Qed.

Lemma join2_plain (a b : string) (c : ascii) (rest : string) :
  a <> "" -> ends_with_sep a = false -> b = String c rest -> c <> "/"%char ->
  join2 a b = (a ++ "/" ++ b)%string.
Proof.
  intros Ha He -> Hc. unfold join2. cbn [prefix].
  destruct (ascii_dec "/" c) as [E | _]; [congruence | ].
  rewrite He. destruct a; [contradiction | reflexivity].
Qed.


(** ** Checkpoints *)

Lemma filter_none p t : none p t -> filter p t = [].
Proof.
  induction 1 as [|e t He _ IH]; cbn; [reflexivity | now rewrite He].
Qed.

Lemma train_logs_substep cfg :
  exists logs, train_logs cfg (substep_locals cfg) = Some logs.
Proof.
  unfold train_logs, substep_locals. cbn [loss_clipsim].
  destruct (Qpositive (l_clipsim cfg)); eexists; reflexivity.
Qed.

Lemma none_substep p cfg sync :
  (forall e, training_event e = true -> p e = false) ->
  none p (substep_trace cfg sync).
Proof.
  intros H. eapply Forall_impl; [ | apply substep_trace_training ]. exact H.
Qed.

Lemma report_main_saves w cfg b l gs st logs :
  train_logs cfg l = Some logs ->
  image_log_freq cfg <> 0 ->
  filter is_save_model (trace (report_main w cfg b l gs st)) =
  if due gs (model_log_freq cfg) then [SaveModel (checkpoint_path cfg gs)] else [].
Proof.
  intros Hl Hi. rewrite report_main_eq. unfold report_main_run, due. rewrite Hl.
  destruct (Z.eqb_spec (image_log_freq cfg) 0); [contradiction | ].
  destruct (model_log_freq cfg =? 0); [reflexivity | ]. cbn [negb andb].
  assert (Hvp : forall lg,
             filter is_save_model
               (trace ((if gs mod eval_freq cfg =? 1
                        then validation_pass w cfg gs lg else ret lg) st)) = []).
  { intros lg. destruct (gs mod eval_freq cfg =? 1); [ | reflexivity].
    apply filter_none, validation_pass_none.
    - intros e. destruct e; try reflexivity; discriminate.
    - reflexivity.
    - reflexivity. }
  destruct (eval_freq cfg =? 0).
  - unfold raised. cbn [trace].
    destruct (gs mod model_log_freq cfg =? 1); reflexivity.
  - cbn zeta. cbn [trace]. rewrite !filter_app, Hvp.
    destruct (result _); destruct (gs mod model_log_freq cfg =? 1); reflexivity.
Qed.

Lemma micro_step_saves w cfg b st :
  image_log_freq cfg <> 0 ->
  filter is_save_model (trace (micro_step w cfg b st)) =
  if sync_now w st && is_main_process w
     && due (global_step st + 1) (model_log_freq cfg)
  then [SaveModel (checkpoint_path cfg (global_step st + 1))] else [].
Proof.
  intros Hi. rewrite micro_step_eq. cbn zeta. cbn [trace].
  rewrite filter_app, (filter_none is_save_model (substep_trace _ _)).
  2:{ apply none_substep. intros e. destruct e; try reflexivity; discriminate. }
  destruct (sync_now w st); cbn [when andb app]; [ | reflexivity].
  rewrite report_eq. cbn zeta. cbn [trace filter is_save_model].
  destruct (is_main_process w); cbn [when andb]; [ | reflexivity].
  destruct (train_logs_substep cfg) as [logs Hl].
  apply (report_main_saves w cfg b _ _ _ logs Hl Hi).
Qed.



(** The scenarios of the specification: with [model_log_freq = 2] the
    steps 1, 2, 3 write [model_1.pkl] and [model_3.pkl]; two batches with
    a group size of one bring the counter to 2. *)
Example checkpoints_at_steps_1_and_3 :
  filter is_save_model
    (trace (for_batches lone_world cfg_pokemon [one_image; one_image; one_image]
              initial)) =
  [SaveModel "exp/pokemon/checkpoints/model_1.pkl";
   SaveModel "exp/pokemon/checkpoints/model_3.pkl"].
Proof. vm_compute. reflexivity. Qed.

Example two_batches_two_steps :
  global_step (final (for_batches lone_world cfg_pokemon (dl_train lone_world 0%nat)
                        initial)) = 2.
Proof. vm_compute. reflexivity. Qed.

(** ** The validation pass: when it runs and how far *)

Lemma validation_pass_forward_count w cfg gs logs st :
  (count (is_forward Validation) (trace (validation_pass w cfg gs logs st))
   <= processed cfg 0 (dl_val w))%nat /\
  count (is_tokenize Validation) (trace (validation_pass w cfg gs logs st)) =
  count (is_forward Validation) (trace (validation_pass w cfg gs logs st)) /\
  count (is_clip_similarity Validation) (trace (validation_pass w cfg gs logs st)) =
  count (is_forward Validation) (trace (validation_pass w cfg gs logs st)) /\
  (forall lg, result (validation_pass w cfg gs logs st) = Returned lg ->
              count (is_forward Validation) (trace (validation_pass w cfg gs logs st))
              = processed cfg 0 (dl_val w) /\
              lg = val_logs cfg logs (processed cfg 0 (dl_val w))).
Proof.
  rewrite validation_pass_eq. unfold validation_pass_run. cbn zeta.
  cbn [trace result]. rewrite !count_app.
  destruct (validation_loop_counts cfg gs (dl_val w) 0%nat 0%nat st)
    as (B1 & B2 & B3 & B4).
  assert (P : forall p, (p = is_forward Validation \/ p = is_tokenize Validation
                         \/ p = is_clip_similarity Validation) ->
              count p (if track_fid_metrci_val cfg
                       then [Makedirs (fid_dir cfg gs)] else []) = 0%nat).
  { intros p [-> | [-> | ->]]; destruct (track_fid_metrci_val cfg); reflexivity. }
  assert (S : forall p, (p = is_forward Validation \/ p = is_tokenize Validation
                         \/ p = is_clip_similarity Validation) ->
              count p match result (validation_loop cfg gs 0 (dl_val w) 0 st) with
                      | Returned _ =>
                          (if track_fid_metrci_val cfg
                           then [FolderFeatures (fid_dir cfg gs); FidFromFeats]
                           else []) ++ [GcCollect; EmptyCache]
                      | Raised _ => []
                      end = 0%nat).
  { intros p [-> | [-> | ->]]; destruct (result _);
      destruct (track_fid_metrci_val cfg); reflexivity. }
  rewrite !P, !S by tauto.
  split; [lia | split; [lia | split; [lia | ]]].
  intros lg H.
  destruct (result (validation_loop cfg gs 0 (dl_val w) 0 st)) as [n | e] eqn:E;
    [ | discriminate].
  destruct (B4 n eq_refl) as [C N]. cbn in N. subst n.
  injection H as <-. split; [lia | reflexivity].
Qed.

Lemma In_micro_step_report w cfg b st e :
  In e (trace (micro_step w cfg b st)) ->
  training_event e = false ->
  e <> ProgressUpdate ->
  sync_now w st = true /\ is_main_process w = true /\
  In e (trace (report_main w cfg b (substep_locals cfg) (global_step st + 1)
                 (stepped (entered st)))).
Proof.
  intros Hin Ht Hp. rewrite micro_step_eq in Hin. cbn zeta in Hin.
  cbn [trace] in Hin. apply in_app_or in Hin. destruct Hin as [Hin | Hin].
  - pose proof (substep_trace_training cfg (sync_now w st)) as F.
    rewrite Forall_forall in F. apply F in Hin. congruence.
  - destruct (sync_now w st); [ | destruct Hin]. cbn [when] in Hin.
    rewrite report_eq in Hin. cbn zeta in Hin. cbn [trace] in Hin.
    destruct Hin as [Hin | Hin]; [congruence | ].
    destruct (is_main_process w); [ | destruct Hin].
    repeat split. exact Hin.
Qed.

(** C8: an event of the validation pass occurs in a micro-step only if the
    step is synchronized, the process is the main process and
    [global_step % eval_freq == 1]; whatever the validation loader yields,
    a pass runs the model on at most [num_samples_to_eval] batches, and a
    pass that completes has run it on exactly the first
    [min(len(dl_val), num_samples_to_eval)] of them and averages that many
    samples. *)
Theorem C8_validation_only_when_due_and_bounded :
  forall (w : World) (cfg : TrainConfig),
    (forall b st e,
        In e (trace (micro_step w cfg b st)) ->
        validation_event e = true ->
        sync_gradients w gradient_accumulation_steps (accumulate_calls st) = true /\
        is_main_process w = true /\
        eval_freq cfg <> 0 /\
        (global_step st + 1) mod eval_freq cfg = 1) /\
    (forall gs logs st,
        (count (is_forward Validation) (trace (validation_pass w cfg gs logs st))
         <= Z.to_nat (num_samples_to_eval cfg))%nat) /\
    (forall gs logs st lg,
        result (validation_pass w cfg gs logs st) = Returned lg ->
        count (is_forward Validation) (trace (validation_pass w cfg gs logs st)) =
        Nat.min (List.length (dl_val w)) (Z.to_nat (num_samples_to_eval cfg))).
Proof.
  intros w cfg. split; [ | split].
  - intros b st e Hin Hv.
    destruct (In_micro_step_report w cfg b st e Hin) as (Hs & Hm & Hr).
    { revert Hv. clear. destruct e; cbn; try reflexivity; try discriminate;
        destruct p; intros H; try reflexivity; discriminate. }
    { intros ->. discriminate. }
    split; [exact Hs | split; [exact Hm | ]].
    rewrite report_main_eq in Hr. unfold report_main_run in Hr.
    destruct (train_logs cfg (substep_locals cfg)); [ | destruct Hr].
    destruct (image_log_freq cfg =? 0); [destruct Hr | ].
    destruct (model_log_freq cfg =? 0); [destruct Hr | ].
    assert (Hsave : ~ In e (if (global_step st + 1) mod model_log_freq cfg =? 1
                            then [SaveModel (checkpoint_path cfg (global_step st + 1))]
                            else [])).
    { destruct (_ =? 1); [ | tauto]. intros [<- | []]. discriminate. }
    destruct (Z.eqb_spec (eval_freq cfg) 0) as [E0 | E0]; [contradiction | ].
    split; [exact E0 | ].
    cbn zeta in Hr. cbn [trace] in Hr.
    apply in_app_or in Hr. destruct Hr as [Hr | Hr]; [contradiction | ].
    apply in_app_or in Hr.
    destruct (Z.eqb_spec ((global_step st + 1) mod eval_freq cfg) 1) as [E1 | E1];
      [exact E1 | ].
    cbn [ret trace result] in Hr.
    destruct Hr as [[] | [<- | []]]. discriminate.
  - intros gs logs st.
    destruct (validation_pass_forward_count w cfg gs logs st) as (B1 & _).
    unfold processed in B1. lia.
  - intros gs logs st lg H.
    destruct (validation_pass_forward_count w cfg gs logs st) as (_ & _ & _ & B4).
    destruct (B4 lg H) as [C _]. rewrite C. unfold processed.
    now rewrite Z.sub_0_r.
Qed.

Lemma C8_witness :
  In GcCollect (trace (micro_step lone_world cfg_eval one_image initial)) /\
  (global_step initial + 1) mod eval_freq cfg_eval = 1 /\
  (count (is_forward Validation)
     (trace (validation_pass lone_world cfg_eval 1 [] initial)) <= 1)%nat.
Proof.
  assert (Hin : In GcCollect (trace (micro_step lone_world cfg_eval one_image initial))).
  { vm_compute. repeat first [left; reflexivity | right]. }
  destruct (C8_validation_only_when_due_and_bounded lone_world cfg_eval)
    as (A & B & _).
  split; [exact Hin | split].
  - apply (A one_image initial GcCollect Hin eq_refl).
  - apply (B 1 [] initial).
Defined.

(** ** The text-similarity term *)

Lemma report_event_not_clip_text e :
  report_event e = true -> is_clip_text Training e = false.
Proof.
  destruct e; cbn; try reflexivity; try discriminate;
    destruct p; intros H; try reflexivity; discriminate.
Qed.

(** C5, as the code has it: when the text-similarity weight is 0 a
    micro-step tokenizes no caption and computes no CLIP similarity for
    the training loss; the validation pass, whatever the weight, tokenizes
    the captions of every batch it runs the model on and computes their
    CLIP similarity, as the logged metric [val/clipsim]. *)
Theorem C5_no_clip_text_in_training_when_weight_zero :
  forall (w : World) (cfg : TrainConfig) (b : Batch) (st : state),
    ((l_clipsim cfg == 0)%Q ->
     none (is_clip_text Training) (trace (micro_step w cfg b st))) /\
    (forall gs logs s,
        let t := trace (validation_pass w cfg gs logs s) in
        count (is_tokenize Validation) t = count (is_forward Validation) t /\
        count (is_clip_similarity Validation) t = count (is_forward Validation) t).
Proof.
  intros w cfg b st. split.
  - intros H. apply Qpositive_zero in H. rewrite micro_step_eq. cbn zeta. cbn [trace]. apply none_app. split.
    + unfold substep_trace, reconstruction_step. rewrite H.
      destruct (sync_now w st); repeat constructor.
    + destruct (sync_now w st); cbn [when]; [ | constructor].
      eapply Forall_impl; [ | apply report_events ].
      apply report_event_not_clip_text.
  - intros gs logs s t. subst t.
    destruct (validation_pass_forward_count w cfg gs logs s) as (_ & T & C & _).
    split; assumption.
Qed.

Lemma C5_witness :
  (l_clipsim cfg_eval == 0)%Q /\
  none (is_clip_text Training)
    (trace (micro_step lone_world cfg_eval one_image initial)).
Proof.
  assert (H : (l_clipsim cfg_eval == 0)%Q) by reflexivity.
  split; [exact H | ].
  exact (proj1 (C5_no_clip_text_in_training_when_weight_zero
                  lone_world cfg_eval one_image initial) H).
Defined.

(** The claim fails for the validation pass: with a weight of 0, the
    micro-step that triggers validation tokenizes a caption and computes a
    CLIP similarity. *)
Lemma C5_counterexample :
  (l_clipsim cfg_eval == 0)%Q /\
  filter (is_clip_text Validation)
    (trace (micro_step lone_world cfg_eval one_image initial)) =
  [Tokenize Validation; ClipSimilarity Validation].
Proof. split; [reflexivity | vm_compute; reflexivity]. Qed.

(** ** The assertion of the validation pass *)


Lemma validation_pass_returns w cfg gs logs st :
  (forall i b, nth_error (dl_val w) i = Some b ->
               Z.of_nat i < num_samples_to_eval cfg -> shape_B b = 1) ->
  result (validation_pass w cfg gs logs st) =
  Returned (val_logs cfg logs (processed cfg 0 (dl_val w))).
Proof.
  intros H. rewrite validation_pass_eq. unfold validation_pass_run.
  cbn zeta. cbn [result].
  now rewrite (validation_loop_returns cfg gs (dl_val w) 0%nat 0%nat st H).
Qed.

Lemma micro_step_result w cfg b st :
  result (micro_step w cfg b st) =
  if sync_now w st && is_main_process w
  then result (report_main w cfg b (substep_locals cfg) (global_step st + 1)
                 (stepped (entered st)))
  else Returned tt.
Proof.
  rewrite micro_step_eq. cbn zeta. cbn [result].
  destruct (sync_now w st); cbn [when andb]; [ | reflexivity].
  rewrite report_eq. cbn zeta. cbn [result].
  destruct (is_main_process w); reflexivity.
Qed.





(** ** The calls of a micro-step *)

Lemma filter_micro_step p w cfg b st :
  (forall e, report_event e = true -> p e = false) ->
  filter p (trace (micro_step w cfg b st)) =
  filter p (substep_trace cfg (sync_now w st)).
Proof.
  intros H. rewrite micro_step_eq. cbn zeta. cbn [trace]. rewrite filter_app.
  rewrite (filter_none p (trace (when _ _ _))); [apply app_nil_r | ].
  destruct (sync_now w st); cbn [when]; [ | constructor].
  eapply Forall_impl; [ | apply report_events]. exact H.
Qed.

(** X1: [accelerator.clip_grad_norm_] is called in a micro-step only when
    the step is synchronized, and then once in each of the four branches:
    twice on the generator's parameters, then twice on the
    discriminator's. *)
Theorem X1_gradient_clipping_only_on_synchronized_steps :
  forall (w : World) (cfg : TrainConfig) (b : Batch) (st : state),
    filter is_clip_grad (trace (micro_step w cfg b st)) =
    if sync_gradients w gradient_accumulation_steps (accumulate_calls st)
    then [ClipGradNorm Gen; ClipGradNorm Gen; ClipGradNorm Disc; ClipGradNorm Disc]
    else [].
Proof.
  intros w cfg b st. rewrite filter_micro_step.
  - unfold substep_trace, reconstruction_step, sync_now.
    destruct (Qpositive (l_clipsim cfg));
      destruct (sync_gradients w gradient_accumulation_steps (accumulate_calls st));
      reflexivity.
  - intros e. destruct e; cbn; try reflexivity; try discriminate;
      destruct p; intros H; try reflexivity; discriminate.
Qed.

(** X2: whatever the configuration, the process role and the
    synchronization flag, a micro-step runs the generator twice and makes
    four backward calls, each followed by a step of the optimizer of its
    branch and by [zero_grad] before the next backward call: first the
    reconstruction loss (the weighted MSE plus the weighted LPIPS term
    when the text-similarity weight is not positive), then the generator's
    adversarial loss, then the discriminator's loss on the real and on the
    fake image.  Their sum [lossD] is never handed to a backward call. *)
Theorem X2_four_backward_calls_each_stepped_and_cleared :
  forall (w : World) (cfg : TrainConfig) (b : Batch) (st : state),
    let t := trace (micro_step w cfg b st) in
    filter is_gradient_call t =
      [Backward (reconstruction_loss cfg); OptimizerStep Gen; ZeroGrad Gen;
       Backward (mul disc_for_G (lit (l_gan cfg))); OptimizerStep Gen; ZeroGrad Gen;
       Backward (mul disc_for_real (lit (l_gan cfg))); OptimizerStep Disc;
       ZeroGrad Disc;
       Backward (mul disc_for_fake (lit (l_gan cfg))); OptimizerStep Disc;
       ZeroGrad Disc] /\
    count (is_forward Training) t = 2%nat /\
    count (is_scheduler_step Gen) t = 2%nat /\
    ((l_clipsim cfg <= 0)%Q ->
     reconstruction_loss cfg =
     add (mul mse_loss (lit (l_rec cfg))) (mul lpips_mean (lit (l_lpips cfg)))).
Proof.
  intros w cfg b st t. subst t. unfold count.
  rewrite !filter_micro_step.
  - unfold substep_trace, reconstruction_step, reconstruction_loss.
    repeat split.
    + destruct (Qpositive (l_clipsim cfg)); destruct (sync_now w st); reflexivity.
    + destruct (Qpositive (l_clipsim cfg)); destruct (sync_now w st); reflexivity.
    + destruct (Qpositive (l_clipsim cfg)); destruct (sync_now w st); reflexivity.
    + intros H. destruct (Qpositive (l_clipsim cfg)) eqn:E; [ | reflexivity].
      apply Qpositive_true in E. apply Qlt_not_le in E. contradiction.
  - intros e. destruct e; cbn; try reflexivity; try discriminate;
      destruct p; intros H; try reflexivity; discriminate.
  - intros e. destruct e; cbn; try reflexivity; try discriminate;
      destruct p; intros H; try reflexivity; discriminate.
  - intros e. destruct e; cbn; try reflexivity; try discriminate;
      destruct p; intros H; try reflexivity; discriminate.
Qed.

Lemma X2_witness :
  (l_clipsim cfg_eval <= 0)%Q /\
  reconstruction_loss cfg_eval =
  add (mul mse_loss (lit 1%Q)) (mul lpips_mean (lit 5%Q)).
Proof.
  assert (H : (l_clipsim cfg_eval <= 0)%Q) by (cbn; apply Qle_refl).
  split; [exact H | ].
  exact (proj2 (proj2 (proj2 (X2_four_backward_calls_each_stepped_and_cleared
                                lone_world cfg_eval one_image initial))) H).
Defined.

(** ** What a synchronized step reports, and how it can fail *)

Lemma validation_loop_result cfg gs batches :
  forall step n st,
    (exists n', result (validation_loop cfg gs step batches n st) = Returned n') \/
    result (validation_loop cfg gs step batches n st) =
    Raised (AssertionError assert_msg).
Proof.
  induction batches as [|b rest IH]; intros step n st.
  - left. exists n. reflexivity.
  - rewrite validation_loop_cons.
    destruct (Z.of_nat step >=? num_samples_to_eval cfg);
      [left; exists n; reflexivity | ].
    destruct (shape_B b =? 1); [apply IH | right; reflexivity].
Qed.

Lemma validation_pass_result w cfg gs logs st :
  result (validation_pass w cfg gs logs st) =
    Returned (val_logs cfg logs (processed cfg 0 (dl_val w))) \/
  result (validation_pass w cfg gs logs st) = Raised (AssertionError assert_msg).
Proof.
  destruct (validation_pass_forward_count w cfg gs logs st) as (_ & _ & _ & B4).
  rewrite validation_pass_eq in *. unfold validation_pass_run in *.
  cbn zeta in *. cbn [result] in *.
  destruct (validation_loop_result cfg gs (dl_val w) 0%nat 0%nat st) as [[n E] | E];
    rewrite E in *.
  - left. destruct (B4 _ eq_refl) as [_ L]. now rewrite L.
  - right. reflexivity.
Qed.

Lemma report_main_logs w cfg b l gs st logs0 :
  train_logs cfg l = Some logs0 ->
  filter is_tracker_log (trace (report_main w cfg b l gs st)) =
  match result (report_main w cfg b l gs st) with
  | Returned _ => [TrackerLog (step_logs w cfg b gs logs0) gs]
  | Raised _ => []
  end.
Proof.
  intros Hl. rewrite report_main_eq. unfold report_main_run, step_logs, raised.
  rewrite Hl.
  destruct (image_log_freq cfg =? 0); [reflexivity | ].
  destruct (model_log_freq cfg =? 0); [reflexivity | ].
  assert (Hs : filter is_tracker_log
                 (if gs mod model_log_freq cfg =? 1
                  then [SaveModel (checkpoint_path cfg gs)] else []) = [])
    by (destruct (gs mod model_log_freq cfg =? 1); reflexivity).
  destruct (eval_freq cfg =? 0); [exact Hs | ].
  cbn zeta. cbn [trace result]. rewrite !filter_app, Hs. cbn [app].
  destruct (gs mod eval_freq cfg =? 1).
  - rewrite (filter_none is_tracker_log (trace (validation_pass _ _ _ _ _))).
    + destruct (validation_pass_result w cfg gs (image_logs cfg b gs logs0) st)
        as [E | E]; rewrite E; reflexivity.
    + apply validation_pass_none; try reflexivity.
      intros e. destruct e; try reflexivity; discriminate.
  - reflexivity.
Qed.

Lemma report_main_result w cfg b gs st :
  result (report_main w cfg b (substep_locals cfg) gs st) =
  if (image_log_freq cfg =? 0) || (model_log_freq cfg =? 0) || (eval_freq cfg =? 0)
  then Raised ZeroDivisionError
  else if gs mod eval_freq cfg =? 1
       then match validation_loop cfg gs 0 (dl_val w) 0 st with
            | {| result := Returned _ |} => Returned tt
            | {| result := Raised e |} => Raised e
            end
       else Returned tt.
Proof.
  rewrite report_main_eq. unfold report_main_run, raised.
  destruct (train_logs_substep cfg) as [logs ->].
  destruct (image_log_freq cfg =? 0); [reflexivity | ].
  destruct (model_log_freq cfg =? 0); [reflexivity | ].
  destruct (eval_freq cfg =? 0); [reflexivity | ].
  cbn zeta. cbn [orb result].
  destruct (gs mod eval_freq cfg =? 1); [ | reflexivity].
  rewrite validation_pass_eq. unfold validation_pass_run. cbn zeta. cbn [result].
  destruct (validation_loop cfg gs 0 (dl_val w) 0 st) as [t f [n | e]]; reflexivity.
Qed.

Lemma step_logs_keys w cfg b gs logs0 :
  train_logs cfg (substep_locals cfg) = Some logs0 ->
  let lg := keys (step_logs w cfg b gs logs0) in
  (forall k, In k ["lossG"; "lossD"; "loss_l2"; "loss_lpips"] -> In k lg) /\
  (In "loss_clipsim" lg <-> (0 < l_clipsim cfg)%Q) /\
  (In "train/source" lg <-> gs mod image_log_freq cfg = 1) /\
  (In "train/target" lg <-> gs mod image_log_freq cfg = 1) /\
  (In "train/model_output" lg <-> gs mod image_log_freq cfg = 1) /\
  (In "val/l2" lg <-> gs mod eval_freq cfg = 1) /\
  (In "val/lpips" lg <-> gs mod eval_freq cfg = 1) /\
  (In "val/clipsim" lg <-> gs mod eval_freq cfg = 1) /\
  (In "val/clean_fid" lg <->
   gs mod eval_freq cfg = 1 /\ track_fid_metrci_val cfg = true).
Proof.
  unfold train_logs, substep_locals, step_logs, image_logs, val_logs, keys.
  cbn [loss_clipsim lossG lossD loss_l2 loss_lpips].
  rewrite <- Qpositive_true.
  destruct (Qpositive (l_clipsim cfg)); intros [= <-];
    destruct (Z.eqb_spec (gs mod image_log_freq cfg) 1);
    destruct (Z.eqb_spec (gs mod eval_freq cfg) 1);
    destruct (track_fid_metrci_val cfg);
    cbn [map fst app In];
    (split; [intros k Hk; cbn [In] in Hk; intuition | ]);
    repeat split; intros; intuition (try discriminate; try congruence).
Qed.

Lemma micro_step_tracker_logs w cfg b st logs0 :
  train_logs cfg (substep_locals cfg) = Some logs0 ->
  filter is_tracker_log (trace (micro_step w cfg b st)) =
  if sync_now w st && is_main_process w
  then match result (micro_step w cfg b st) with
       | Returned _ =>
           [TrackerLog (step_logs w cfg b (global_step st + 1) logs0)
              (global_step st + 1)]
       | Raised _ => []
       end
  else [].
Proof.
  intros Hl. rewrite micro_step_result.
  rewrite micro_step_eq. cbn zeta. cbn [trace]. rewrite filter_app.
  rewrite (filter_none is_tracker_log (substep_trace _ _)).
  2:{ apply none_substep. intros e. destruct e; try reflexivity; discriminate. }
  destruct (sync_now w st); cbn [when andb app]; [ | reflexivity].
  rewrite report_eq. cbn zeta. cbn [trace filter is_tracker_log].
  destruct (is_main_process w); cbn [when]; [ | reflexivity].
  apply report_main_logs. exact Hl.
Qed.

(** X3: [accelerator.log] is called at most once in a micro-step: once,
    with the incremented [global_step] as its step, when the step is
    synchronized, the process is the main process and the reporting block
    completes, and not at all otherwise.  The dict it receives always holds
    the four scalar losses; it holds [loss_clipsim] exactly when the
    text-similarity weight is positive, the three [train/] image lists
    exactly when [global_step % image_log_freq == 1], the [val/] averages
    exactly when [global_step % eval_freq == 1], and [val/clean_fid]
    exactly when in addition FID tracking is on. *)
Theorem X3_tracker_log_once_per_completed_step :
  forall (w : World) (cfg : TrainConfig) (b : Batch) (st : state),
    let gs := global_step st + 1 in
    let r := micro_step w cfg b st in
    exists lg,
      filter is_tracker_log (trace r) =
        (if sync_gradients w gradient_accumulation_steps (accumulate_calls st)
            && is_main_process w
         then match result r with
              | Returned _ => [TrackerLog lg gs]
              | Raised _ => []
              end
         else []) /\
      (forall k, In k ["lossG"; "lossD"; "loss_l2"; "loss_lpips"] ->
                 In k (keys lg)) /\
      (In "loss_clipsim" (keys lg) <-> (0 < l_clipsim cfg)%Q) /\
      (In "train/source" (keys lg) <-> gs mod image_log_freq cfg = 1) /\
      (In "train/target" (keys lg) <-> gs mod image_log_freq cfg = 1) /\
      (In "train/model_output" (keys lg) <-> gs mod image_log_freq cfg = 1) /\
      (In "val/l2" (keys lg) <-> gs mod eval_freq cfg = 1) /\
      (In "val/lpips" (keys lg) <-> gs mod eval_freq cfg = 1) /\
      (In "val/clipsim" (keys lg) <-> gs mod eval_freq cfg = 1) /\
      (In "val/clean_fid" (keys lg) <->
       gs mod eval_freq cfg = 1 /\ track_fid_metrci_val cfg = true).
Proof.
  intros w cfg b st gs r. subst gs r.
  destruct (train_logs_substep cfg) as [logs0 Hl].
  exists (step_logs w cfg b (global_step st + 1) logs0). split.
  - apply (micro_step_tracker_logs w cfg b st logs0 Hl).
  - apply (step_logs_keys w cfg b (global_step st + 1) logs0 Hl).
Qed.

Lemma X3_witness :
  In "train/source"
     (match filter is_tracker_log
              (trace (micro_step lone_world cfg_pokemon one_image initial)) with
      | TrackerLog lg _ :: _ => keys lg
      | _ => []
      end).
Proof.
  destruct (X3_tracker_log_once_per_completed_step
              lone_world cfg_pokemon one_image initial)
    as (lg & F & _ & _ & S & _).
  rewrite F. change (In "train/source" (keys lg)). apply S. reflexivity.
Defined.

(** X4: a micro-step can fail in two ways only, a [ZeroDivisionError] or
    the assertion on the validation batch size; it ends in the
    [ZeroDivisionError] exactly when it is a synchronized step of the main
    process and one of the three frequencies is 0.  In particular the read
    of [loss_clipsim] at line 374 never finds the variable unassigned. *)
Theorem X4_failures_of_a_micro_step :
  forall (w : World) (cfg : TrainConfig) (b : Batch) (st : state),
    let r := micro_step w cfg b st in
    (result r = Returned tt \/
     result r = Raised ZeroDivisionError \/
     result r = Raised (AssertionError "Use batch size 1 for eval.")) /\
    (result r = Raised ZeroDivisionError <->
     sync_gradients w gradient_accumulation_steps (accumulate_calls st) = true /\
     is_main_process w = true /\
     (image_log_freq cfg = 0 \/ model_log_freq cfg = 0 \/ eval_freq cfg = 0)).
Proof.
  intros w cfg b st r. subst r. rewrite micro_step_result. unfold sync_now.
  destruct (sync_gradients w gradient_accumulation_steps (accumulate_calls st));
    destruct (is_main_process w); cbn [andb];
    try (split; [left; reflexivity | split; [discriminate | intros (? & ? & _); discriminate]]).
  rewrite report_main_result.
  destruct (Z.eqb_spec (image_log_freq cfg) 0) as [Ei | Ei];
    [cbn [orb]; split; [right; left; reflexivity | split; tauto] | ].
  destruct (Z.eqb_spec (model_log_freq cfg) 0) as [Em | Em];
    [cbn [orb]; split; [right; left; reflexivity | split; tauto] | ].
  destruct (Z.eqb_spec (eval_freq cfg) 0) as [Ee | Ee];
    [cbn [orb]; split; [right; left; reflexivity | split; tauto] | ].
  cbn [orb].
  assert (N : ~ (image_log_freq cfg = 0 \/ model_log_freq cfg = 0 \/ eval_freq cfg = 0))
    by tauto.
  destruct (_ mod eval_freq cfg =? 1).
  - destruct (validation_loop_result cfg (global_step st + 1) (dl_val w) 0%nat 0%nat
                (stepped (entered st))) as [[n E] | E];
      destruct (validation_loop _ _ _ _ _ _) as [t f o]; cbn [result] in E; subst o.
    + split; [left; reflexivity | split; [discriminate | tauto]].
    + split; [right; right; reflexivity | split; [discriminate | tauto]].
  - split; [left; reflexivity | split; [discriminate | tauto]].
Qed.

Lemma X4_witness :
  result (micro_step lone_world cfg_zero_eval one_image initial) =
  Raised ZeroDivisionError.
Proof.
  apply (proj2 (X4_failures_of_a_micro_step lone_world cfg_zero_eval one_image
                  initial)).
  repeat split. right. right. reflexivity.
Defined.

(** X5: when a micro-step fails although [image_log_freq] and
    [model_log_freq] are not 0 (so in the modulo by [eval_freq] or in the
    validation pass), the counter has been incremented, the checkpoint due
    at that step has already been written, and nothing has been sent to
    the tracker for the step. *)
Theorem X5_checkpoint_precedes_a_failing_validation :
  forall (w : World) (cfg : TrainConfig) (b : Batch) (st : state) (e : exn),
    result (micro_step w cfg b st) = Raised e ->
    image_log_freq cfg <> 0 ->
    model_log_freq cfg <> 0 ->
    let gs := global_step st + 1 in
    let t := trace (micro_step w cfg b st) in
    filter is_save_model t =
      (if gs mod model_log_freq cfg =? 1
       then [SaveModel (checkpoint_path cfg gs)] else []) /\
    filter is_tracker_log t = [] /\
    global_step (final (micro_step w cfg b st)) = gs.
Proof.
  intros w cfg b st e R Hi Hm gs t. subst gs t.
  assert (S : sync_now w st && is_main_process w = true).
  { rewrite micro_step_result in R.
    destruct (sync_now w st && is_main_process w); [reflexivity | discriminate]. }
  destruct (train_logs_substep cfg) as [logs0 Hl].
  rewrite (micro_step_saves w cfg b st Hi),
    (micro_step_tracker_logs w cfg b st logs0 Hl), S, R.
  unfold due. destruct (Z.eqb_spec (model_log_freq cfg) 0); [contradiction | ].
  cbn [negb andb]. repeat split.
  rewrite micro_step_final. apply andb_true_iff in S. destruct S as [-> _].
  reflexivity.
Qed.

Lemma X5_witness :
  result (micro_step pairs_world cfg_eval one_image initial) =
    Raised (AssertionError "Use batch size 1 for eval.") /\
  filter is_save_model (trace (micro_step pairs_world cfg_eval one_image initial)) =
    [SaveModel "exp/sketchy_v2/checkpoints/model_1.pkl"].
Proof.
  assert (R : result (micro_step pairs_world cfg_eval one_image initial) =
              Raised (AssertionError "Use batch size 1 for eval."))
    by (vm_compute; reflexivity).
  split; [exact R | ].
  refine (proj1 (X5_checkpoint_precedes_a_failing_validation
                   pairs_world cfg_eval one_image initial _ R _ _));
    discriminate.
Defined.

(** ** Frequencies that never fire *)

Lemma due_ge_2 gs f : due gs f = true -> 2 <= f.
Proof.
  unfold due. rewrite andb_true_iff, negb_true_iff, Z.eqb_neq, Z.eqb_eq.
  intros [Hf Hm].
  destruct (Z.lt_total f 0) as [Hn | [Hz | Hp]]; [ | contradiction | ].
  - pose proof (Z.mod_neg_bound gs f Hn). lia.
  - destruct (Z.eq_dec f 1) as [-> | H1]; [rewrite Z.mod_1_r in Hm; lia | lia].
Qed.

Lemma report_main_In w cfg b l gs st e :
  In e (trace (report_main w cfg b l gs st)) ->
  (e = SaveModel (checkpoint_path cfg gs) /\ due gs (model_log_freq cfg) = true) \/
  (due gs (eval_freq cfg) = true /\
   exists lg, In e (trace (validation_pass w cfg gs lg st))) \/
  (exists lg, e = TrackerLog lg gs).
Proof.
  rewrite report_main_eq. unfold report_main_run, raised, due.
  destruct (train_logs cfg l); [ | intros []].
  destruct (image_log_freq cfg =? 0); [intros [] | ].
  destruct (model_log_freq cfg =? 0); [intros [] | ]. cbn [negb andb].
  assert (Hs : In e (if gs mod model_log_freq cfg =? 1
                     then [SaveModel (checkpoint_path cfg gs)] else []) ->
               e = SaveModel (checkpoint_path cfg gs) /\
               (gs mod model_log_freq cfg =? 1) = true).
  { destruct (gs mod model_log_freq cfg =? 1); [ | intros []].
    intros [<- | []]. split; reflexivity. }
  destruct (eval_freq cfg =? 0); cbn [trace]; [intros H; left; auto | ].
  cbn zeta. cbn [trace negb andb]. intros H.
  apply in_app_or in H. destruct H as [H | H]; [left; auto | ].
  apply in_app_or in H. destruct H as [H | H].
  - right. left. destruct (gs mod eval_freq cfg =? 1); [ | destruct H].
    split; [reflexivity | eexists; exact H].
  - right. right. destruct (result _); [ | destruct H].
    destruct H as [<- | []]. eexists. reflexivity.
Qed.

Lemma micro_step_In w cfg b st e :
  In e (trace (micro_step w cfg b st)) ->
  training_event e = true \/ e = ProgressUpdate \/
  (sync_now w st = true /\ is_main_process w = true /\
   In e (trace (report_main w cfg b (substep_locals cfg) (global_step st + 1)
                  (stepped (entered st))))).
Proof.
  intros H. destruct (training_event e) eqn:T; [left; reflexivity | right].
  destruct e; try (left; reflexivity); right;
    apply (In_micro_step_report w cfg b st _ H T); discriminate.
Qed.

Section WholeRun.
Variable P : event -> Prop.
Variables (w : World) (cfg : TrainConfig).
Hypothesis micro : forall b s, Forall P (trace (micro_step w cfg b s)).

Lemma all_for_batches batches : forall s, Forall P (trace (for_batches w cfg batches s)).
Proof.
  induction batches as [|b rest IH]; intros s; cbn [for_batches].
  - constructor.
  - apply all_bind; [apply micro | intros _ s'; apply IH].
Qed.

Lemma all_for_epochs epochs : forall s, Forall P (trace (for_epochs w cfg epochs s)).
Proof.
  induction epochs as [|e rest IH]; intros s; cbn [for_epochs].
  - constructor.
  - apply all_bind; [apply all_for_batches | intros _ s'; apply IH].
Qed.

Lemma all_training_loop s : Forall P (trace (training_loop w cfg s)).
Proof.
  unfold training_loop.
  apply all_bind; [constructor | intros s0 s1].
  apply all_bind; [constructor | intros _ s2].
  apply all_for_epochs.
Qed.

Lemma all_main s :
  Forall P (trace (setup w cfg s)) -> Forall P (trace (main w cfg s)).
Proof.
  intros H. unfold main. apply all_bind; [exact H | intros _ s'].
  apply all_training_loop.
Qed.
End WholeRun.

Lemma setup_events w cfg st :
  Forall (fun e => setup_event e = true) (trace (setup w cfg st)).
Proof.
  unfold setup.
  apply all_bind.
  { rewrite construct_models_eq. cbn [trace]. unfold construct_trace.
    destruct (seed cfg); destruct (is_main_process w); repeat constructor. }
  intros _ s1. apply all_bind.
  { unfold dataset_dispatch.
    repeat match goal with
           | |- context [if ?c then _ else _] => destruct c
           end; all_tac. }
  intros ds s2. apply all_bind.
  { unfold make_loaders. apply all_bind; [apply all_emit; reflexivity | intros _ s3].
    destruct (snd ds); [apply all_emit; reflexivity | apply all_raise]. }
  intros _ s3. unfold prepare_run.
  apply all_bind; [apply all_emit; reflexivity | intros _ s4].
  apply all_bind; [apply all_when; intros _; apply all_emit; reflexivity | intros _ s5].
  apply all_bind.
  { unfold py_floordiv. destruct (_ =? 0); constructor. }
  intros m s6.
  apply all_bind; [apply all_emit; reflexivity | intros _ s7].
  apply all_when; intros _; apply all_emit; reflexivity.
Qed.

(** X6: a frequency of 1 (or below) never fires, because the test is
    [global_step % freq == 1]: with [model_log_freq <= 1] a run writes no
    checkpoint at all, and with [eval_freq <= 1] it never runs the
    validation pass. *)
Theorem X6_frequency_of_one_never_fires :
  forall (w : World) (cfg : TrainConfig) (st : state),
    (model_log_freq cfg <= 1 -> none is_save_model (trace (main w cfg st))) /\
    (eval_freq cfg <= 1 -> none validation_event (trace (main w cfg st))).
Proof.
  intros w cfg st. split; intros Hf; apply all_main.
  - intros b s. apply Forall_forall. intros e He.
    destruct (micro_step_In w cfg b s e He) as [T | [-> | (_ & _ & H)]];
      [destruct e; try reflexivity; discriminate | reflexivity | ].
    destruct (report_main_In _ _ _ _ _ _ _ H) as [[_ D] | [[_ [lg V]] | [lg ->]]];
      [apply due_ge_2 in D; lia | | reflexivity].
    refine (none_In _ _ _ (validation_pass_none is_save_model _ _ _ _ _ _ _ _) V);
      try reflexivity.
    intros e'. destruct e'; try reflexivity; discriminate.
  - eapply Forall_impl; [ | apply setup_events].
    intros e. destruct e; try reflexivity; discriminate.
  - intros b s. apply Forall_forall. intros e He.
    destruct (micro_step_In w cfg b s e He) as [T | [-> | (_ & _ & H)]];
      [ | reflexivity | ].
    + destruct e; try reflexivity; try discriminate; destruct p;
        try reflexivity; discriminate.
    + destruct (report_main_In _ _ _ _ _ _ _ H) as [[-> _] | [[D _] | [lg ->]]];
        [reflexivity | apply due_ge_2 in D; lia | reflexivity].
  - eapply Forall_impl; [ | apply setup_events].
    intros e. destruct e; try reflexivity; discriminate.
Qed.

Lemma X6_witness :
  model_log_freq cfg_every_step <= 1 /\
  none is_save_model (trace (main lone_world cfg_every_step initial)).
Proof.
  assert (H : model_log_freq cfg_every_step <= 1) by (cbn; lia).
  split; [exact H | ].
  exact (proj1 (X6_frequency_of_one_never_fires lone_world cfg_every_step initial) H).
Defined.

(** ** Whole runs *)

Lemma setup_events_worker w cfg st :
  is_main_process w = false ->
  Forall (fun e => main_process_event e = false) (trace (setup w cfg st)).
Proof.
  intros Hw. unfold setup.
  apply all_bind.
  { rewrite construct_models_eq. cbn [trace]. unfold construct_trace. rewrite Hw.
    destruct (seed cfg); repeat constructor. }
  intros _ s1. apply all_bind.
  { unfold dataset_dispatch.
    repeat match goal with
           | |- context [if ?c then _ else _] => destruct c
           end; all_tac. }
  intros ds s2. apply all_bind.
  { unfold make_loaders. apply all_bind; [apply all_emit; reflexivity | intros _ s3].
    destruct (snd ds); [apply all_emit; reflexivity | apply all_raise]. }
  intros _ s3. unfold prepare_run. rewrite Hw. cbn [andb].
  apply all_bind; [apply all_emit; reflexivity | intros _ s4].
  apply all_bind; [constructor | intros _ s5].
  apply all_bind.
  { unfold py_floordiv. destruct (_ =? 0); constructor. }
  intros m s6.
  apply all_bind; [apply all_emit; reflexivity | intros _ s7].
  constructor.
Qed.

Section Completion.
Variables (w : World) (cfg : TrainConfig).
Hypothesis micro : forall b s, result (micro_step w cfg b s) = Returned tt.

Lemma for_batches_ok batches :
  forall s,
    result (for_batches w cfg batches s) = Returned tt /\
    accumulate_calls (final (for_batches w cfg batches s)) =
    (accumulate_calls s + List.length batches)%nat.
Proof.
  induction batches as [|b rest IH]; intros s; cbn [for_batches].
  - split; [reflexivity | cbn; lia].
  - rewrite bind_result, bind_final, micro.
    destruct (IH (final (micro_step w cfg b s))) as [R F].
    split; [exact R | ]. rewrite F, micro_step_final. cbn. lia.
Qed.

Lemma for_epochs_ok epochs :
  forall s,
    result (for_epochs w cfg epochs s) = Returned tt /\
    accumulate_calls (final (for_epochs w cfg epochs s)) =
    (accumulate_calls s + total_batches w epochs)%nat.
Proof.
  induction epochs as [|e rest IH]; intros s; cbn [for_epochs].
  - split; [reflexivity | cbn; lia].
  - rewrite bind_result, bind_final.
    destruct (for_batches_ok (dl_train w e) s) as [R F]. rewrite R.
    destruct (IH (final (for_batches w cfg (dl_train w e) s))) as [R' F'].
    split; [exact R' | ]. rewrite F', F.
    change (total_batches w (e :: rest))
      with (List.length (dl_train w e) + total_batches w rest)%nat.
    lia.
Qed.

Lemma training_loop_ok s :
  let epochs := seq 0 (Z.to_nat (epoch_num cfg)) in
  result (training_loop w cfg s) = Returned tt /\
  accumulate_calls (final (training_loop w cfg s)) =
    (accumulate_calls s + total_batches w epochs)%nat /\
  global_step (final (training_loop w cfg s)) =
    Z.of_nat (syncs w (accumulate_calls s) (total_batches w epochs)).
Proof.
  intros epochs.
  set (s0 := {| global_step := 0; accumulate_calls := accumulate_calls s |}).
  change (result (training_loop w cfg s)) with (result (for_epochs w cfg epochs s0)).
  change (final (training_loop w cfg s)) with (final (for_epochs w cfg epochs s0)).
  destruct (for_epochs_ok epochs s0) as [R F].
  destruct (advanced_for_epochs w cfg epochs s0) as [_ G].
  split; [exact R | split; [exact F | ]].
  rewrite G, F. cbn [s0 global_step accumulate_calls].
  replace (accumulate_calls s + total_batches w epochs - accumulate_calls s)%nat
    with (total_batches w epochs) by lia.
  apply Z.add_0_l.
Qed.
End Completion.

Lemma micro_step_worker w cfg b s :
  is_main_process w = false -> result (micro_step w cfg b s) = Returned tt.
Proof.
  intros Hw. rewrite micro_step_result, Hw, andb_false_r. reflexivity.
Qed.

(** X7: a process that is not the main process creates no directory,
    never initialises or calls the tracker, computes no folder statistics,
    writes no checkpoint and no image and runs no validation pass, over the
    whole run; its training loop cannot fail, whatever the frequencies and
    the validation batches are, and its counter ends at the number of
    synchronized micro-steps. *)
Theorem X7_only_the_main_process_does_io :
  forall (w : World) (cfg : TrainConfig) (st : state),
    is_main_process w = false ->
    let epochs := seq 0 (Z.to_nat (epoch_num cfg)) in
    none main_process_event (trace (main w cfg st)) /\
    result (training_loop w cfg st) = Returned tt /\
    global_step (final (training_loop w cfg st)) =
    Z.of_nat (syncs w (accumulate_calls st) (total_batches w epochs)).
Proof.
  intros w cfg st Hw epochs. split.
  - apply all_main; [ | apply setup_events_worker; exact Hw].
    intros b s. apply Forall_forall. intros e He.
    destruct (micro_step_In w cfg b s e He) as [T | [-> | (_ & Hm & _)]];
      [ | reflexivity | congruence].
    destruct e; try reflexivity; try discriminate; destruct p;
      try reflexivity; discriminate.
  - destruct (training_loop_ok w cfg (fun b s => micro_step_worker w cfg b s Hw) st)
      as (R & _ & G).
    split; [exact R | exact G].
Qed.

Lemma X7_witness :
  is_main_process worker_world = false /\
  result (training_loop worker_world cfg_zero_eval initial) = Returned tt.
Proof.
  split; [reflexivity | ].
  exact (proj1 (proj2 (X7_only_the_main_process_does_io
                         worker_world cfg_zero_eval initial eq_refl))).
Defined.









(** ** The files of a validation pass *)

Lemma validation_loop_images cfg gs batches :
  forall step n st,
    let t := trace (validation_loop cfg gs step batches n st) in
    filter is_save_image t =
    if track_fid_metrci_val cfg
    then map (fun i => SaveImage (val_image_path cfg gs i))
             (seq step (count (is_forward Validation) t))
    else [].
Proof.
  induction batches as [|b rest IH]; intros step n st; cbn zeta.
  - cbn. destruct (track_fid_metrci_val cfg); reflexivity.
  - rewrite validation_loop_cons.
    destruct (Z.of_nat step >=? num_samples_to_eval cfg);
      [cbn; destruct (track_fid_metrci_val cfg); reflexivity | ].
    destruct (shape_B b =? 1);
      [ | cbn; destruct (track_fid_metrci_val cfg); reflexivity].
    cbn zeta. cbn [trace]. rewrite filter_app, count_app.
    specialize (IH (S step) (S n) st). cbn zeta in IH. rewrite IH.
    unfold val_batch_trace.
    destruct (track_fid_metrci_val cfg); reflexivity.
Qed.

Lemma validation_loop_batch_events cfg gs batches :
  forall step n s,
    Forall (fun e => val_batch_event e = true)
           (trace (validation_loop cfg gs step batches n s)).
Proof.
  induction batches as [|b rest IH]; intros step n s.
  - constructor.
  - rewrite validation_loop_cons.
    destruct (Z.of_nat step >=? num_samples_to_eval cfg); [constructor | ].
    destruct (shape_B b =? 1); [ | constructor].
    cbn zeta. cbn [trace]. apply Forall_app. split; [ | apply IH].
    unfold val_batch_trace. destruct (track_fid_metrci_val cfg); repeat constructor.
Qed.

(** X11: a validation pass saves images only when FID tracking is on, and
    then one per batch it runs the model on, numbered from 0 in the order
    of the loader ([val_0.png], [val_1.png], ...); the statistics of the
    folder of the pass and the FID score are computed exactly when
    tracking is on and the loop over the batches completes. *)
Theorem X11_validation_images_and_fid :
  forall (w : World) (cfg : TrainConfig) (gs : Z) (logs : logs_t) (st : state),
    let r := validation_pass w cfg gs logs st in
    let completes :=
      match result r with Returned _ => true | Raised _ => false end in
    filter is_save_image (trace r) =
      (if track_fid_metrci_val cfg
       then map (fun i => SaveImage (val_image_path cfg gs i))
                (seq 0 (count (is_forward Validation) (trace r)))
       else []) /\
    filter is_folder_features (trace r) =
      (if track_fid_metrci_val cfg && completes
       then [FolderFeatures (fid_dir cfg gs)] else []) /\
    count is_fid (trace r) =
      (if track_fid_metrci_val cfg && completes then 1 else 0)%nat.
Proof.
  intros w cfg gs logs st r completes. subst r completes.
  rewrite validation_pass_eq. unfold validation_pass_run. cbn zeta.
  cbn [trace result]. unfold count. rewrite !filter_app.
  pose proof (validation_loop_images cfg gs (dl_val w) 0%nat 0%nat st) as I.
  cbn zeta in I. unfold count in I.
  assert (N : forall p, (forall e, val_batch_event e = true -> p e = false) ->
                        filter p (trace (validation_loop cfg gs 0 (dl_val w) 0 st)) = []).
  { intros p Hp. apply filter_none.
    eapply Forall_impl; [ | apply validation_loop_batch_events]. exact Hp. }
  repeat split.
  - rewrite I.
    destruct (track_fid_metrci_val cfg);
      destruct (result (validation_loop cfg gs 0 (dl_val w) 0 st));
      cbn [filter is_save_image is_forward app]; rewrite ?app_nil_r; reflexivity.
  - rewrite N.
    + destruct (track_fid_metrci_val cfg);
        destruct (result (validation_loop cfg gs 0 (dl_val w) 0 st)); reflexivity.
    + intros e. destruct e; try reflexivity; try discriminate;
        destruct p; discriminate.
  - rewrite N.
    + destruct (track_fid_metrci_val cfg);
        destruct (result (validation_loop cfg gs 0 (dl_val w) 0 st)); reflexivity.
    + intros e. destruct e; try reflexivity; try discriminate;
        destruct p; discriminate.
Qed.

(** ** Where the files go *)

Lemma has_sep_uint d : has_sep (NilEmpty.string_of_uint d) = false.
Proof. induction d; cbn; auto. Qed.

Lemma str_no_sep n : has_sep (str n) = false.
Proof.
  unfold str, NilZero.string_of_int, NilZero.string_of_uint.
  destruct (Z.to_int n) as [d | d]; destruct d; cbn; try reflexivity;
    apply has_sep_uint.
Qed.

Lemma str_nonempty n : str n <> "".
Proof.
  unfold str, NilZero.string_of_int, NilZero.string_of_uint.
  destruct (Z.to_int n) as [d | d]; destruct d; cbn; discriminate.
Qed.

Lemma str_inj n m : str n = str m -> n = m.
Proof.
  intros H. apply DecimalZ.to_int_inj.
  assert (I : forall z, NilZero.int_of_string (str z) = Some (Z.to_int z)).
  { intros z. unfold str. apply NilZero.isi; destruct z; cbn; try discriminate;
      intros [= E]; exact (DecimalPos.Unsigned.to_uint_nonnil _ E). }
  pose proof (I n) as In. rewrite H, I in In. now injection In.
Qed.

Lemma ends_with_sep_no_sep s : has_sep s = false -> ends_with_sep s = false.
Proof.
  unfold ends_with_sep. induction s as [|c s IH]; [reflexivity | ].
  cbn [has_sep]. intros H. apply orb_false_iff in H. destruct H as [Hc Hs].
  destruct s as [|c' s']; [cbn; exact Hc | ].
  change (last_char (String c (String c' s'))) with (last_char (String c' s')).
  apply IH. exact Hs.
Qed.

Lemma ends_with_sep_app a s :
  s <> "" -> ends_with_sep (a ++ s)%string = ends_with_sep s.
Proof. intros H. unfold ends_with_sep. now rewrite last_char_app. Qed.

(** A component that does not start with a slash is appended to what
    precedes it. *)
Lemma join2_suffix a c rest :
  c <> "/"%char -> exists pre, join2 a (String c rest) = (pre ++ String c rest)%string.
Proof.
  intros Hc. unfold join2. cbn [prefix].
  destruct (ascii_dec "/" c) as [E | _]; [congruence | ].
  destruct (String.eqb a "" || ends_with_sep a).
  - exists a. reflexivity.
  - exists (a ++ "/")%string. now rewrite string_app_assoc.
Qed.

Lemma join2_dir a c rest :
  c <> "/"%char -> has_sep (String c rest) = false ->
  join2 a (String c rest) <> "" /\ ends_with_sep (join2 a (String c rest)) = false.
Proof.
  intros Hc Hs. destruct (join2_suffix a c rest Hc) as [pre ->]. split.
  - destruct pre; discriminate.
  - rewrite ends_with_sep_app by discriminate. now apply ends_with_sep_no_sep.
Qed.

Lemma has_sep_app a b : has_sep (a ++ b)%string = has_sep a || has_sep b.
Proof.
  induction a as [|c a IH]; [reflexivity | ].
  cbn [append has_sep]. now rewrite IH, orb_assoc.
Qed.

Lemma checkpoint_path_in_dir cfg gs :
  checkpoint_path cfg gs =
  (os_path_join (output_dir cfg) ["checkpoints"] ++ "/model_" ++ str gs ++ ".pkl")%string.
Proof.
  unfold checkpoint_path, os_path_join. cbn [fold_left].
  destruct (join2_dir (output_dir cfg) "c" "heckpoints") as [C1 C2];
    [discriminate | reflexivity | ].
  apply (join2_plain _ _ "m" ("odel_" ++ str gs ++ ".pkl")%string C1 C2 eq_refl).
  discriminate.
Qed.

Lemma fid_dir_in_dir cfg gs :
  fid_dir cfg gs =
  (os_path_join (output_dir cfg) ["eval"] ++ "/fid_" ++ str gs)%string.
Proof.
  unfold fid_dir, os_path_join. cbn [fold_left].
  destruct (join2_dir (output_dir cfg) "e" "val") as [E1 E2];
    [discriminate | reflexivity | ].
  apply (join2_plain _ _ "f" ("id_" ++ str gs)%string E1 E2 eq_refl). discriminate.
Qed.

Lemma val_image_path_in_dir cfg gs step :
  val_image_path cfg gs step =
  (fid_dir cfg gs ++ "/val_" ++ str (Z.of_nat step) ++ ".png")%string.
Proof.
  pose proof (fid_dir_in_dir cfg gs) as F.
  unfold val_image_path, fid_dir, os_path_join in *. cbn [fold_left] in *.
  destruct (join2_dir (output_dir cfg) "e" "val") as [E1 E2];
    [discriminate | reflexivity | ].
  apply (join2_plain _ _ "v" ("al_" ++ str (Z.of_nat step) ++ ".png")%string);
    [ | | reflexivity | discriminate].
  - rewrite F. destruct (join2 (output_dir cfg) "eval"); [contradiction | discriminate].
  - rewrite F. rewrite ends_with_sep_app by discriminate.
    rewrite ends_with_sep_app by apply str_nonempty.
    apply ends_with_sep_no_sep, str_no_sep.
Qed.

(** X12: whatever the output directory is (empty, relative, absolute, with
    or without a trailing slash), the checkpoint of a step lies directly
    in the [checkpoints] directory that the main process creates at start,
    the folder of a validation pass directly in the [eval] directory
    created at start, and every image of the pass directly in that folder,
    which is also the folder whose statistics are computed. *)
Theorem X12_files_lie_in_the_created_directories :
  forall (cfg : TrainConfig) (gs : Z) (step : nat),
    checkpoint_path cfg gs =
      (os_path_join (output_dir cfg) ["checkpoints"]
       ++ "/model_" ++ str gs ++ ".pkl")%string /\
    fid_dir cfg gs =
      (os_path_join (output_dir cfg) ["eval"] ++ "/fid_" ++ str gs)%string /\
    val_image_path cfg gs step =
      (fid_dir cfg gs ++ "/val_" ++ str (Z.of_nat step) ++ ".png")%string.
Proof.
  intros cfg gs step. split; [ | split].
  - apply checkpoint_path_in_dir.
  - apply fid_dir_in_dir.
  - apply val_image_path_in_dir.
Qed.

Lemma string_app_inv_head (a s t : string) :
  (a ++ s)%string = (a ++ t)%string -> s = t.
Proof.
  induction a as [|c a IH]; cbn [append]; [auto | ].
  intros [= H]. auto.
Qed.

Lemma string_length_app (a b : string) :
  String.length (a ++ b) = (String.length a + String.length b)%nat.
Proof. induction a as [|c a IH]; cbn; [reflexivity | now rewrite IH]. Qed.

Lemma string_app_inv_tail (s t z : string) :
  (s ++ z)%string = (t ++ z)%string -> s = t.
Proof.
  revert t. induction s as [|c s IH]; intros [|d t] H.
  - reflexivity.
  - apply (f_equal String.length) in H. cbn [append] in H.
    cbn [String.length] in H. rewrite string_length_app in H. lia.
  - apply (f_equal String.length) in H. cbn [append] in H.
    cbn [String.length] in H. rewrite string_length_app in H. lia.
  - cbn [append] in H. injection H as -> H. f_equal. apply IH. exact H.
Qed.

(** X13: different steps never share a file: the checkpoint path
    determines the step, the folder of a validation pass determines the
    step of the pass, and within a pass the image path determines the
    index of the batch.  No checkpoint or validation image of a run
    overwrites an earlier one. *)
Theorem X13_one_file_per_step :
  forall (cfg : TrainConfig),
    (forall gs gs', checkpoint_path cfg gs = checkpoint_path cfg gs' -> gs = gs') /\
    (forall gs gs', fid_dir cfg gs = fid_dir cfg gs' -> gs = gs') /\
    (forall gs step step',
        val_image_path cfg gs step = val_image_path cfg gs step' -> step = step').
Proof.
  intros cfg. repeat split.
  - intros gs gs' H. rewrite !checkpoint_path_in_dir in H.
    apply string_app_inv_head in H.
    apply (string_app_inv_head "/model_") in H.
    apply string_app_inv_tail in H. apply str_inj. exact H.
  - intros gs gs' H. rewrite !fid_dir_in_dir in H.
    apply string_app_inv_head in H.
    apply (string_app_inv_head "/fid_") in H. apply str_inj. exact H.
  - intros gs step step' H. rewrite !val_image_path_in_dir in H.
    apply string_app_inv_head in H.
    apply (string_app_inv_head "/val_") in H.
    apply string_app_inv_tail in H. apply str_inj in H. lia.
Qed.

(** ** The parameters of the generator's optimizer *)

Lemma prefix_spec (a s : string) :
  prefix a s = true <-> exists b, s = (a ++ b)%string.
Proof.
  revert s. induction a as [|c a IH]; intros s.
  - split; [intros _; exists s; reflexivity | intros _; destruct s; reflexivity].
  - destruct s as [|d s]; cbn [prefix append].
    + split; [discriminate | intros [b H]; discriminate].
    + destruct (ascii_dec c d) as [-> | N].
      * rewrite IH. split; intros [b H]; exists b; [now rewrite H | now injection H].
      * split; [discriminate | intros [b H]; injection H as E _; congruence].
Qed.

Lemma contains_unfold (sub s : string) :
  contains sub s =
  prefix sub s
  || match s with
     | EmptyString => false
     | String _ rest => contains sub rest
     end.
Proof. destruct s; reflexivity. Qed.

Lemma contains_spec (sub s : string) :
  contains sub s = true <-> exists a b, s = (a ++ sub ++ b)%string.
Proof.
  split.
  - induction s as [|c s IH]; rewrite contains_unfold, orb_true_iff.
    + intros [H | H]; [ | discriminate].
      apply prefix_spec in H. destruct H as [b H]. exists "", b. exact H.
    + intros [H | H].
      * apply prefix_spec in H. destruct H as [b H]. exists "", b. exact H.
      * destruct (IH H) as (a & b & E). exists (String c a), b.
        cbn [append]. now rewrite E.
  - intros (a & b & E). subst s. induction a as [|c a IH].
    + rewrite contains_unfold. cbn [append].
      rewrite (proj2 (prefix_spec sub (sub ++ b))); [reflexivity | ].
      exists b. reflexivity.
    + rewrite contains_unfold. cbn [append]. rewrite IH. apply orb_true_r.
Qed.

Lemma select_parameters_spec test named :
  forall acc,
    select_parameters test named acc =
    if forallb (fun np => negb (test (fst np)) || requires_grad (snd np)) named
    then Returned (acc ++ selected test named)
    else Raised (AssertionError "").
Proof.
  unfold selected.
  induction named as [|[n p] rest IH]; intros acc; cbn [select_parameters].
  - cbn. now rewrite app_nil_r.
  - cbn [forallb filter fst snd]. destruct (test n); cbn [negb orb andb].
    + destruct (requires_grad p); cbn [andb]; [ | reflexivity].
      rewrite IH. destruct (forallb _ rest); [ | reflexivity].
      cbn [map snd]. now rewrite <- app_assoc.
    + apply IH.
Qed.

Lemma forallb_trainable (test : string -> bool) (named : list (string * Param)) :
  forallb (fun np => negb (test (fst np)) || requires_grad (snd np)) named = true <->
  (forall n p, In (n, p) named -> test n = true -> requires_grad p = true).
Proof.
  rewrite forallb_forall. split.
  - intros H n p Hin Ht. specialize (H (n, p) Hin). cbn [fst snd] in H.
    rewrite Ht in H. exact H.
  - intros H [n p] Hin. cbn [fst snd]. destruct (test n) eqn:Ht; [ | reflexivity].
    cbn. apply (H n p Hin Ht).
Qed.

Lemma In_selected test named p :
  In p (selected test named) <-> exists n, In (n, p) named /\ test n = true.
Proof.
  unfold selected. rewrite in_map_iff. split.
  - intros ([n q] & E & H). cbn in E. subst q. apply filter_In in H.
    exists n. exact H.
  - intros (n & H & T). exists (n, p). split; [reflexivity | ].
    apply filter_In. split; [exact H | exact T].
Qed.

(** X14: when every UNet parameter with "lora" in its name and every VAE
    parameter with both "lora" and "vae_skip" in its name requires
    gradients, the list handed to the generator's optimizer is, in this
    order: those UNet parameters, all parameters of [unet.conv_in], those
    VAE parameters, and all parameters of the four skip convolutions.  A
    UNet parameter is selected exactly when its name has the form
    [a ++ "lora" ++ b]; the parameters of [conv_in] and of the skip
    convolutions are taken whether they require gradients or not. *)
Theorem X14_layers_to_opt_when_assertions_hold :
  forall (g : Generator),
    (forall n p, In (n, p) (unet_named_parameters g) ->
                 contains "lora" n = true -> requires_grad p = true) ->
    (forall n p, In (n, p) (vae_named_parameters g) ->
                 contains "lora" n = true -> contains "vae_skip" n = true ->
                 requires_grad p = true) ->
    layers_to_opt g =
      Returned (selected unet_test (unet_named_parameters g)
                ++ unet_conv_in_parameters g
                ++ selected vae_test (vae_named_parameters g)
                ++ skip_conv_1_parameters g ++ skip_conv_2_parameters g
                ++ skip_conv_3_parameters g ++ skip_conv_4_parameters g) /\
    (forall p, In p (selected unet_test (unet_named_parameters g)) <->
               exists n a b, In (n, p) (unet_named_parameters g) /\
                             n = (a ++ "lora" ++ b)%string) /\
    (forall p, In p (selected vae_test (vae_named_parameters g)) <->
               exists n, In (n, p) (vae_named_parameters g) /\
                         (exists a b, n = (a ++ "lora" ++ b)%string) /\
                         (exists a b, n = (a ++ "vae_skip" ++ b)%string)).
Proof.
  intros g Hu Hv. split; [ | split].
  - unfold layers_to_opt. rewrite !select_parameters_spec.
    rewrite (proj2 (forallb_trainable unet_test (unet_named_parameters g))) by exact Hu.
    rewrite select_parameters_spec.
    rewrite (proj2 (forallb_trainable vae_test (vae_named_parameters g))).
    + cbn [app]. now rewrite <- !app_assoc.
    + intros n p Hin Ht. unfold vae_test in Ht. apply andb_true_iff in Ht.
      destruct Ht as [T1 T2]. apply (Hv n p Hin T1 T2).
  - intros p. rewrite In_selected. unfold unet_test. split.
    + intros (n & Hin & T). apply contains_spec in T. destruct T as (a & b & E).
      exists n, a, b. split; assumption.
    + intros (n & a & b & Hin & E). exists n. split; [exact Hin | ].
      apply contains_spec. exists a, b. exact E.
  - intros p. rewrite In_selected. unfold vae_test. split.
    + intros (n & Hin & T). apply andb_true_iff in T. destruct T as [T1 T2].
      exists n. split; [exact Hin | ]. split; apply contains_spec; assumption.
    + intros (n & Hin & T1 & T2). exists n. split; [exact Hin | ].
      apply andb_true_iff. split; apply contains_spec; assumption.
Qed.

Lemma X14_witness :
  map p_id
    match layers_to_opt sample_generator with
    | Returned l => l
    | Raised _ => []
    end
  = [1; 3; 0; 1; 4; 6; 7; 8; 9]%nat.
Proof.
  assert (Hu : forall n p, In (n, p) (unet_named_parameters sample_generator) ->
                           contains "lora" n = true -> requires_grad p = true).
  { intros n p [[= <- <-] | [[= <- <-] | [[= <- <-] | [[= <- <-] | []]]]] T;
      try reflexivity; discriminate T. }
  assert (Hv : forall n p, In (n, p) (vae_named_parameters sample_generator) ->
                           contains "lora" n = true -> contains "vae_skip" n = true ->
                           requires_grad p = true).
  { intros n p [[= <- <-] | [[= <- <-] | []]] T1 T2;
      try reflexivity; discriminate T2. }
  rewrite (proj1 (X14_layers_to_opt_when_assertions_hold sample_generator Hu Hv)).
  reflexivity.
Defined.

(** X15: building the parameter list fails, with the bare assertion of
    line 81 or 86, exactly when some UNet parameter with "lora" in its name
    or some VAE parameter with "lora" and "vae_skip" in its name does not
    require gradients; a frozen parameter whose name does not pass the
    test is no obstacle, and no other failure is possible. *)
Theorem X15_layers_to_opt_asserts_requires_grad :
  forall (g : Generator),
    (layers_to_opt g = Raised (AssertionError "") <->
     (exists n p, In (n, p) (unet_named_parameters g) /\
                  contains "lora" n = true /\ requires_grad p = false) \/
     (exists n p, In (n, p) (vae_named_parameters g) /\
                  contains "lora" n = true /\ contains "vae_skip" n = true /\
                  requires_grad p = false)) /\
    ((exists l, layers_to_opt g = Returned l) \/
     layers_to_opt g = Raised (AssertionError "")).
Proof.
  intros g.
  assert (F : forall (test : string -> bool) (named : list (string * Param)),
             forallb (fun np => negb (test (fst np)) || requires_grad (snd np)) named
             = false <->
             exists n p, In (n, p) named /\ test n = true /\ requires_grad p = false).
  { intros test named. rewrite <- not_true_iff_false, forallb_trainable. split.
    - intros H. induction named as [|[n p] rest IH].
      + exfalso. apply H. intros n p [].
      + destruct (test n) eqn:T; [destruct (requires_grad p) eqn:R | ].
        * destruct IH as (n' & p' & Hin & H').
          { intros H'. apply H. intros n' p' [[= <- <-] | Hin] T'; [exact R | ].
            apply (H' n' p' Hin T'). }
          exists n', p'. split; [right; exact Hin | exact H'].
        * exists n, p. split; [left; reflexivity | split; assumption].
        * destruct IH as (n' & p' & Hin & H').
          { intros H'. apply H. intros n' p' [[= <- <-] | Hin] T'; [congruence | ].
            apply (H' n' p' Hin T'). }
          exists n', p'. split; [right; exact Hin | exact H'].
    - intros (n & p & Hin & T & R) H. rewrite (H n p Hin T) in R. discriminate. }
  unfold layers_to_opt. rewrite select_parameters_spec.
  destruct (forallb _ (unet_named_parameters g)) eqn:U.
  - rewrite select_parameters_spec.
    destruct (forallb _ (vae_named_parameters g)) eqn:V.
    + split; [ | left; eexists; reflexivity].
      split; [discriminate | ].
      intros [H | (n & p & Hin & T1 & T2 & R)].
      * apply (F unet_test) in H. congruence.
      * assert (E : forallb (fun np => negb (vae_test (fst np)) || requires_grad (snd np))
                      (vae_named_parameters g) = false).
        { apply F. exists n, p. unfold vae_test. rewrite T1, T2. auto. }
        congruence.
    + split; [ | right; reflexivity].
      split; [intros _ | reflexivity]. right.
      apply F in V. destruct V as (n & p & Hin & T & R).
      unfold vae_test in T. apply andb_true_iff in T. destruct T as [T1 T2].
      exists n, p. auto.
  - split; [ | right; reflexivity].
    split; [intros _ | reflexivity]. left.
    apply F in U. exact U.
Qed.

Lemma X15_witness :
  layers_to_opt frozen_generator = Raised (AssertionError "").
Proof.
  apply (proj1 (X15_layers_to_opt_asserts_requires_grad frozen_generator)).
  left. exists "mid_block.lora_A.weight", {| p_id := 0; requires_grad := false |}.
  repeat split. left. reflexivity.
Defined.

Lemma Param_eq_dec (p q : Param) : {p = q} + {p <> q}.
Proof. decide equality; [apply Bool.bool_dec | apply Nat.eq_dec]. Defined.

Lemma layers_to_opt_returned g l :
  layers_to_opt g = Returned l ->
  l = selected unet_test (unet_named_parameters g)
      ++ unet_conv_in_parameters g
      ++ selected vae_test (vae_named_parameters g)
      ++ skip_conv_1_parameters g ++ skip_conv_2_parameters g
      ++ skip_conv_3_parameters g ++ skip_conv_4_parameters g.
Proof.
  unfold layers_to_opt. rewrite select_parameters_spec.
  destruct (forallb _ (unet_named_parameters g)); [ | discriminate].
  rewrite select_parameters_spec.
  destruct (forallb _ (vae_named_parameters g)); [ | discriminate].
  intros [= <-]. cbn [app]. now rewrite <- !app_assoc.
Qed.

(** X16: the list is built by concatenation, without removing duplicates:
    a parameter of [unet.conv_in] whose name contains "lora" is selected by
    the first loop and added again with the parameters of [conv_in], so
    the optimizer receives it twice; and the list has as many entries as
    the seven parts together. *)
Theorem X16_layers_to_opt_keeps_duplicates :
  forall (g : Generator) (l : list Param) (n : string) (p : Param),
    layers_to_opt g = Returned l ->
    In (n, p) (unet_named_parameters g) ->
    contains "lora" n = true ->
    In p (unet_conv_in_parameters g) ->
    (2 <= count_occ Param_eq_dec l p)%nat /\
    List.length l =
      (List.length (selected unet_test (unet_named_parameters g))
       + List.length (unet_conv_in_parameters g)
       + List.length (selected vae_test (vae_named_parameters g))
       + List.length (skip_conv_1_parameters g)
       + List.length (skip_conv_2_parameters g)
       + List.length (skip_conv_3_parameters g)
       + List.length (skip_conv_4_parameters g))%nat.
Proof.
  intros g l n p R Hin T Hc. apply layers_to_opt_returned in R. subst l. split.
  - rewrite !count_occ_app.
    assert (S : In p (selected unet_test (unet_named_parameters g)))
      by (apply In_selected; exists n; split; assumption).
    apply (count_occ_In Param_eq_dec) in S.
    apply (count_occ_In Param_eq_dec) in Hc. lia.
  - rewrite !length_app. lia.
Qed.

Lemma X16_witness :
  (2 <= count_occ Param_eq_dec
          match layers_to_opt sample_generator with
          | Returned l => l
          | Raised _ => []
          end
          {| p_id := 1; requires_grad := true |})%nat.
Proof.
  destruct (layers_to_opt sample_generator) as [l | e] eqn:E;
    [ | discriminate E].
  refine (proj1 (X16_layers_to_opt_keeps_duplicates sample_generator l
                   "conv_in.lora_A.default.weight"
                   {| p_id := 1; requires_grad := true |} E _ eq_refl _)).
  - right. left. reflexivity.
  - right. left. reflexivity.
Defined.

(** ** Edges of the validation pass and of the micro-step *)

(** X17: with [num_samples_to_eval <= 0] a validation pass leaves the loop
    at the first batch: it runs the model on nothing, saves no image and
    cannot fail the assertion whatever the batches are; it still completes
    and logs the three [val/] averages, taken over zero samples. *)
Theorem X17_validation_of_zero_samples :
  forall (w : World) (cfg : TrainConfig) (gs : Z) (logs : logs_t) (st : state),
    num_samples_to_eval cfg <= 0 ->
    let r := validation_pass w cfg gs logs st in
    result r = Returned (val_logs cfg logs 0) /\
    count (is_forward Validation) (trace r) = 0%nat /\
    filter is_save_image (trace r) = [] /\
    (forall k, In k ["val/l2"; "val/lpips"; "val/clipsim"] ->
               In (k, LMean 0) (val_logs cfg logs 0)).
Proof.
  intros w cfg gs logs st Hn r. subst r.
  assert (P : processed cfg 0 (dl_val w) = 0%nat) by (unfold processed; lia).
  assert (R : result (validation_pass w cfg gs logs st) =
              Returned (val_logs cfg logs 0)).
  { rewrite <- P. apply validation_pass_returns. intros i b _ Hi. lia. }
  destruct (validation_pass_forward_count w cfg gs logs st) as (B & _).
  rewrite P in B.
  assert (C : count (is_forward Validation)
                (trace (validation_pass w cfg gs logs st)) = 0%nat) by lia.
  split; [exact R | split; [exact C | split]].
  - rewrite validation_pass_eq. unfold validation_pass_run. cbn zeta. cbn [trace].
    rewrite !filter_app.
    pose proof (validation_loop_images cfg gs (dl_val w) 0%nat 0%nat st) as I.
    cbn zeta in I. rewrite I.
    destruct (validation_loop_counts cfg gs (dl_val w) 0%nat 0%nat st) as (B1 & _).
    fold (processed cfg 0 (dl_val w)) in B1. rewrite P in B1.
    replace (count (is_forward Validation)
               (trace (validation_loop cfg gs 0 (dl_val w) 0 st))) with 0%nat by lia.
    destruct (track_fid_metrci_val cfg);
      destruct (result (validation_loop cfg gs 0 (dl_val w) 0 st)); reflexivity.
  - intros k Hk. unfold val_logs. apply in_or_app. right.
    cbn [In] in Hk. cbn [In]. intuition (subst; auto).
Qed.

Lemma X17_witness :
  num_samples_to_eval cfg_no_samples <= 0 /\
  result (validation_pass pairs_world cfg_no_samples 1 [] initial) =
  Returned [("val/l2", LMean 0); ("val/lpips", LMean 0); ("val/clipsim", LMean 0)].
Proof.
  assert (H : num_samples_to_eval cfg_no_samples <= 0) by (cbn; lia).
  split; [exact H | ].
  exact (proj1 (X17_validation_of_zero_samples pairs_world cfg_no_samples 1 []
                  initial H)).
Defined.

(** X18: a validation pass, whether it completes or fails, makes no
    backward call, steps no optimizer or scheduler, clips and clears no
    gradient, writes no checkpoint and logs nothing itself, and leaves the
    step counter as it was. *)
Theorem X18_validation_changes_no_training_state :
  forall (w : World) (cfg : TrainConfig) (gs : Z) (logs : logs_t) (st : state),
    let r := validation_pass w cfg gs logs st in
    none training_event (trace r) /\
    none is_save_model (trace r) /\
    none is_tracker_log (trace r) /\
    final r = st.
Proof.
  intros w cfg gs logs st r. subst r. repeat split.
  - apply validation_pass_none; try reflexivity.
    intros e. destruct e; try reflexivity; try discriminate; destruct p;
      try reflexivity; discriminate.
  - apply validation_pass_none; try reflexivity.
    intros e. destruct e; try reflexivity; discriminate.
  - apply validation_pass_none; try reflexivity.
    intros e. destruct e; try reflexivity; discriminate.
  - apply validation_pass_stateless.
Qed.

(** X19: a micro-step that is not synchronized consists of the four
    sub-steps alone: no progress update, no log, no checkpoint, no
    validation; it cannot fail, whatever the frequencies and the validation
    batches are, and it leaves the step counter unchanged. *)
Theorem X19_unsynchronized_micro_step_reports_nothing :
  forall (w : World) (cfg : TrainConfig) (b : Batch) (st : state),
    sync_gradients w gradient_accumulation_steps (accumulate_calls st) = false ->
    let r := micro_step w cfg b st in
    Forall (fun e => training_event e = true) (trace r) /\
    none report_event (trace r) /\
    result r = Returned tt /\
    final r = {| global_step := global_step st;
                 accumulate_calls := S (accumulate_calls st) |}.
Proof.
  intros w cfg b st Hs r. subst r.
  rewrite micro_step_final, micro_step_result, micro_step_eq.
  unfold sync_now. rewrite Hs. cbn zeta. cbn [when ret trace andb].
  rewrite app_nil_r, Z.add_0_r.
  split; [apply substep_trace_training | split; [ | split; reflexivity]].
  eapply Forall_impl; [ | apply substep_trace_training].
  intros e. destruct e; try reflexivity; try discriminate; destruct p;
    try reflexivity; discriminate.
Qed.

Lemma X19_witness :
  sync_gradients accumulating_world gradient_accumulation_steps
    (accumulate_calls initial) = false /\
  result (micro_step accumulating_world cfg_zero_eval one_image initial) = Returned tt.
Proof.
  split; [reflexivity | ].
  exact (proj1 (proj2 (proj2 (X19_unsynchronized_micro_step_reports_nothing
                                accumulating_world cfg_zero_eval one_image initial
                                eq_refl)))).
Defined.

Lemma X13_witness :
  checkpoint_path cfg_eval 3 = checkpoint_path cfg_eval (1 + 2) /\ 3 = 1 + 2.
Proof.
  split; [reflexivity | ].
  exact (proj1 (X13_one_file_per_step cfg_eval) 3 (1 + 2) eq_refl).
Defined.
